(** * rss2irc: the cache scrubbing and deduplication engine

    A shallow embedding of [rss2irc.py] (a Python 2 script) and the
    properties of its cache handling, message formatting and feed parsing.

    Python values are modelled by the fragment the script manipulates:
    - a dictionary is a [gmap]; a key is [None] or a string, so the key
      type is [option string];
    - a value stored in the cache is [None], an integer or a string; the
      other values a pickle can hold (floats, lists, ...) are outside the
      model;
    - [time.time()] yields a float, which is a rational number: the script
      only orders it against integers and truncates it, and both operations
      are exact on rationals;
    - a file system maps the paths that exist to the contents of regular
      files that can be read and written; directories and permissions are
      outside the model. *)

From Stdlib Require Import ZArith QArith Qround Lqa Ascii String.
From stdpp Require Import gmap strings list fin_maps.

Local Open Scope Z_scope.
Local Open Scope string_scope.

(** ** Python values *)

(** A dictionary key or an optional text field: [None] or a [str]. *)
Abbreviation pykey := (option string).

(** The values of a cache record that the model covers: [None], an integer
    (what the script itself stores) and a string. *)
Inductive pyval : Type :=
  | PyNone
  | PyInt (z : Z)
  | PyStr (s : string).

(** The exceptions the modelled code can raise. *)
Inductive exn : Type :=
  | ValueError
  | TypeError
  | KeyError
  | IOError
  | UnpicklingError
  | RequestException.

#[global] Instance exn_eq_dec : EqDecision exn.
Proof. solve_decision. Defined.

#[global] Instance pyval_eq_dec : EqDecision pyval.
Proof. solve_decision. Defined.

(** Result of a computation that may raise. *)
Inductive result (A : Type) : Type :=
  | Ok (a : A)
  | Raise (e : exn).
Arguments Ok {A} a.
Arguments Raise {A} e.

#[global] Instance result_eq_dec {A : Type} `{EqDecision A} :
  EqDecision (result A).
Proof. solve_decision. Defined.

Definition bind {A B : Type} (r : result A) (k : A -> result B) : result B :=
  match r with
  | Ok a => k a
  | Raise e => Raise e
  end.

Notation "x <- r ;;; k" := (bind r (fun x => k))
  (at level 100, r at next level, right associativity, only parsing).

(** Truth value of an optional string: [None] and [''] are false. *)
Definition truthy (o : pykey) : bool :=
  match o with
  | None => false
  | Some s => negb (String.eqb s "")
  end.

(** ['%s' % o]: a string is itself, [None] prints as ["None"]. *)
Definition py_str (o : pykey) : string :=
  match o with
  | None => "None"
  | Some s => s
  end.

(** The line feed ['\n']. *)
Definition LF : string := String "010"%char EmptyString.

(** [int(x)] on a float [x]: truncation towards zero. *)
Definition int_of_float (x : Q) : Z := Z.quot (Qnum x) (Zpos (Qden x)).

(** [i < x] for an integer [i] and a float [x]; Python compares the two
    exactly. *)
Definition int_lt_float (i : Z) (x : Q) : bool :=
  if Qlt_le_dec (inject_Z i) x then true else false.

(** ** Dictionaries *)

(** [d.keys()]: in Python 2 a fresh list, so the dictionary may be changed
    while the list is walked. Python fixes no order; the model walks the
    keys in the map's own order, and the loops below are stated over any
    list of keys. *)
Definition keys {V : Type} (d : gmap pykey V) : list pykey :=
  (map_to_list d).*1.

(** [d[k]]. *)
Definition dict_get {V : Type} (d : gmap pykey V) (k : pykey) : result V :=
  match d !! k with
  | Some v => Ok v
  | None => Raise KeyError
  end.

(** [d.pop(k)], the popped value dropped. *)
Definition dict_pop {V : Type} (k : pykey) (d : gmap pykey V)
    : result (gmap pykey V) :=
  match d !! k with
  | Some _ => Ok (delete k d)
  | None => Raise KeyError
  end.

(** [k in d]. *)
Definition dict_contains {V : Type} (k : pykey) (d : gmap pykey V) : bool :=
  bool_decide (is_Some (d !! k)).

(** ** Formatting, lines 21-38 *)

(** [format_message(url, msg_attrs, handle=None)]; [msg_attrs] is the pair
    [(title, category)]. *)
Definition format_message (url : pykey) (msg_attrs : pykey * pykey)
    (handle : pykey) : string :=
  if truthy handle then
    let tag :=
      if truthy (snd msg_attrs)
      then py_str handle ++ "-" ++ py_str (snd msg_attrs)
      else py_str handle in
    "[" ++ tag ++ "] " ++ py_str (fst msg_attrs) ++ " | " ++ py_str url ++ LF
  else
    py_str url ++ LF.

(** ** Parsing, lines 153-166 *)

Section Parse.

(** [feedparser.parse(data)['entries']]: each entry maps a field name to
    its text. *)
Variable feedparser_parse : string -> list (gmap string string).

(** [entry.pop(k, None)]: the value, or [None], and the entry without [k]. *)
Definition entry_pop (k : string) (entry : gmap string string)
    : pykey * gmap string string :=
  (entry !! k, delete k entry).

(** The test of line 162, [not 'link' and not 'title'], is on the two
    string literals, not on the variables. *)
Definition no_link_no_title : bool :=
  negb (truthy (Some "link")) && negb (truthy (Some "title")).

(** One turn of the loop of lines 159-166. *)
Definition parse_entry (entry : gmap string string)
    (news : gmap pykey (pykey * pykey)) : gmap pykey (pykey * pykey) :=
  let '(link, entry1) := entry_pop "link" entry in
  let '(title, entry2) := entry_pop "title" entry1 in
  if no_link_no_title then news
  else
    let '(category, _) := entry_pop "category" entry2 in
    <[link := (title, category)]> news.

Fixpoint parse_entries (entries : list (gmap string string))
    (news : gmap pykey (pykey * pykey)) : gmap pykey (pykey * pykey) :=
  match entries with
  | [] => news
  | entry :: rest => parse_entries rest (parse_entry entry news)
  end.

(** [parse_news(data, news)]; [news] is a dictionary by its type, so the
    [ValueError] of line 156 is never raised. *)
Definition parse_news (data : string) (news : gmap pykey (pykey * pykey))
    : gmap pykey (pykey * pykey) :=
  parse_entries (feedparser_parse data) news.

End Parse.

(** ** Scrubbing, lines 190-209 *)

Section Scrub.

(** [int(s)] on a string: its value, or [None] where Python raises
    [ValueError]. *)
Variable int_literal : string -> option Z.

(** [int(v)] on the values of the model. On a value outside it Python
    raises too ([TypeError] on a list, a dictionary or a tuple,
    [OverflowError] on an infinite float), so nothing below says which
    exceptions a pass can end in: the statements are about the records that
    are [None], integers and strings. *)
Definition py_int (v : pyval) : result Z :=
  match v with
  | PyInt z => Ok z
  | PyStr s =>
      match int_literal s with
      | Some z => Ok z
      | None => Raise ValueError
      end
  | PyNone => Raise TypeError
  end.

(** One turn of the loop of lines 197-209. Only [ValueError] is caught. *)
Definition scrub_key (time_now : Q) (key : pykey) (cache : gmap pykey pyval)
    : result (gmap pykey pyval) :=
  v <- dict_get cache key ;;;
  match py_int v with
  | Raise ValueError => dict_pop key cache
  | Raise e => Raise e
  | Ok expiration =>
      if int_lt_float expiration time_now
      then dict_pop key cache
      else Ok cache
  end.

Fixpoint scrub_keys (time_now : Q) (ks : list pykey)
    (cache : gmap pykey pyval) : result (gmap pykey pyval) :=
  match ks with
  | [] => Ok cache
  | key :: rest =>
      cache' <- scrub_key time_now key cache ;;;
      scrub_keys time_now rest cache'
  end.

(** [scrub_cache(logger, cache)]; [time_now] is what [time.time()] returns
    on line 196, and the result is the dictionary as the call leaves it. *)
Definition scrub_cache (time_now : Q) (cache : gmap pykey pyval)
    : result (gmap pykey pyval) :=
  scrub_keys time_now (keys cache) cache.

End Scrub.

(** ** The cache file, lines 169-187 and 217-227 *)

(** A file system maps a path to the contents of the file there; each path
    it holds is a regular file that can be read and written. *)
Abbreviation filesystem := (gmap string string).

(** [os.path.exists(path)]. *)
Definition path_exists (path : string) (fs : filesystem) : bool :=
  bool_decide (is_Some (fs !! path)).

Section Store.

(** [pickle.dump] and [pickle.load], on the contents of a file. *)
Variable pickle_dumps : gmap pykey pyval -> string.
Variable pickle_loads : string -> result (gmap pykey pyval).

(** [read_cache(logger, cache_file)]. In the model a path that exists is a
    regular file that can be read, so [open] returns its contents; the
    [IOError] of [open] on a directory or an unreadable file is outside the
    model, and nothing below says that [pickle.load] is the only call that
    can raise here. *)
Definition read_cache (cache_file : pykey) (fs : filesystem)
    : result (gmap pykey pyval) :=
  if negb (truthy cache_file) then Ok ∅
  else if negb (path_exists (py_str cache_file) fs) then Ok ∅
  else
    match fs !! py_str cache_file with
    | Some contents => pickle_loads contents
    | None => Raise IOError
    end.

(** [write_cache(data, cache_file)]; opening a file for writing creates or
    truncates it. *)
Definition write_cache (data : gmap pykey pyval) (cache_file : pykey)
    (fs : filesystem) : filesystem :=
  if negb (truthy cache_file) then fs
  else <[py_str cache_file := pickle_dumps data]> fs.

End Store.

(** ** Writing the news, lines 230-254 *)

Section Output.

(** Whether the write of the line of [url] outlasts the 5 second alarm, so
    that [signal_handler] raises [ValueError] inside the [try], before
    anything of the line reaches the file. *)
Variable write_stalls : pykey -> bool.

(** [fhandle.write(msg)] on a file opened for appending. *)
Definition append_file (path msg : string) (fs : filesystem) : filesystem :=
  <[path := default "" (fs !! path) ++ msg]> fs.

(** [time.sleep(secs)]: Python 2 raises [IOError] (invalid argument) on a
    negative number of seconds. *)
Definition time_sleep (secs : Z) : result unit :=
  if (secs <? 0)%Z then Raise IOError else Ok tt.

(** One turn of the loop of lines 240-254, from the dictionary and the file
    system to the dictionary, or the exception that leaves the loop, and the
    file system. A stalled write raises [ValueError] before [time.sleep] is
    reached, and the entry is popped; the [IOError] of [time.sleep] is not
    caught, and the line written before it stays in the file. *)
Definition write_entry (output : string) (handle : pykey) (sleep : Z)
    (url : pykey) (data : gmap pykey (pykey * pykey)) (fs : filesystem)
    : result (gmap pykey (pykey * pykey)) * filesystem :=
  match dict_get data url with
  | Raise e => (Raise e, fs)
  | Ok attrs =>
      let msg := format_message url attrs handle in
      if write_stalls url then (dict_pop url data, fs)
      else
        let fs' := append_file output msg fs in
        match time_sleep sleep with
        | Ok _ => (Ok data, fs')
        | Raise e => (Raise e, fs')
        end
  end.

Fixpoint write_entries (output : string) (handle : pykey) (sleep : Z)
    (urls : list pykey) (data : gmap pykey (pykey * pykey))
    (fs : filesystem) : result (gmap pykey (pykey * pykey)) * filesystem :=
  match urls with
  | [] => (Ok data, fs)
  | url :: rest =>
      match write_entry output handle sleep url data fs with
      | (Ok data', fs') => write_entries output handle sleep rest data' fs'
      | (Raise e, fs') => (Raise e, fs')
      end
  end.

(** [write_data(logger, data, output, handle, sleep)]. Opening the file
    for appending creates it when it is missing. The caller's dictionary
    is the one changed by [data.pop(url)], so it is returned; the file
    system is returned whether the call returns or raises. *)
Definition write_data (data : gmap pykey (pykey * pykey)) (output : string)
    (handle : pykey) (sleep : Z) (fs : filesystem)
    : result (gmap pykey (pykey * pykey)) * filesystem :=
  write_entries output handle sleep (keys data) data
    (append_file output "" fs).

End Output.

(** ** The run, lines 64-109 *)

Module Args.
(** The namespace [parse_args()] returns, lines 112-150. *)
Record t : Type := {
  verbosity : bool;
  rss_urls : list string;
  rss_http_timeout : Z;
  handle : pykey;
  output : string;
  cache : pykey;
  cache_expiration : Z;
  cache_init : bool;
  sleep : Z
}.
End Args.

(** How a run ends: [sys.exit(code)], an exception nobody catches, or the
    end of [main]. *)
Inductive outcome : Type :=
  | Exit (code : Z)
  | Uncaught (e : exn)
  | Returned.

Section Main.

Variable requests_get : string -> Z -> result string.
Variable feedparser_parse : string -> list (gmap string string).
Variable int_literal : string -> option Z.
Variable pickle_dumps : gmap pykey pyval -> string.
Variable pickle_loads : string -> result (gmap pykey pyval).
Variable write_stalls : pykey -> bool.

(** What the successive calls of [time.time()] return during the run. *)
Variable clock : nat -> Q.

(** [get_rss(logger, url, timeout)], lines 41-61: the text of the
    response, or [None] after any exception. *)
Definition get_rss (url : string) (timeout : Z) : pykey :=
  match requests_get url timeout with
  | Ok text => Some text
  | Raise _ => None
  end.

(** The loop of lines 81-87; [None] stands for [sys.exit(1)]. *)
Fixpoint fetch_all (urls : list string) (timeout : Z)
    (news : gmap pykey (pykey * pykey))
    : option (gmap pykey (pykey * pykey)) :=
  match urls with
  | [] => Some news
  | rss_url :: rest =>
      let data := get_rss rss_url timeout in
      if negb (truthy data) then None
      else fetch_all rest timeout
             (parse_news feedparser_parse (py_str data) news)
  end.

(** The loop of lines 96-100. The state is the number of clock readings
    made so far, the cache and the news. *)
Fixpoint refresh_known (ttl : Z) (ks : list pykey)
    (st : nat * gmap pykey pyval * gmap pykey (pykey * pykey))
    : result (nat * gmap pykey pyval * gmap pykey (pykey * pykey)) :=
  match ks with
  | [] => Ok st
  | key :: rest =>
      let '(t, cache, news) := st in
      if dict_contains key cache then
        let cache' := <[key := PyInt (int_of_float (clock t) + ttl)]> cache in
        news' <- dict_pop key news ;;;
        refresh_known ttl rest (S t, cache', news')
      else refresh_known ttl rest st
  end.

(** The loop of lines 106-107. *)
Fixpoint record_new (expiration : Z) (ks : list pykey)
    (cache : gmap pykey pyval) : gmap pykey pyval :=
  match ks with
  | [] => cache
  | key :: rest => record_new expiration rest (<[key := PyInt expiration]> cache)
  end.

(** Lines 96-107 of [main], from the news, the scrubbed cache and the
    number [t] of clock readings made before. The result holds the news
    as handed to the emission step and the updated cache, or the exception
    that [write_data] lets through; the file system comes with it. *)
Definition main_update (a : Args.t) (t : nat)
    (news : gmap pykey (pykey * pykey)) (cache : gmap pykey pyval)
    (fs : filesystem)
    : result (gmap pykey (pykey * pykey) * gmap pykey pyval) * filesystem :=
  match refresh_known (Args.cache_expiration a) (keys news) (t, cache, news)
  with
  | Raise e => (Raise e, fs)
  | Ok (t1, cache1, news1) =>
      match
        (if Args.cache_init a then (Ok news1, fs)
         else write_data write_stalls news1 (Args.output a) (Args.handle a)
                (Args.sleep a) fs)
      with
      | (Raise e, fs2) => (Raise e, fs2)
      | (Ok news2, fs2) =>
          let expiration :=
            int_of_float (clock t1) + Args.cache_expiration a in
          (Ok (news1, record_new expiration (keys news2) cache1), fs2)
      end
  end.

(** [main()] from line 69 on, [a] being the namespace that [parse_args()]
    returned on line 68: the outcome and the file system it leaves. The
    first clock reading is the one of [scrub_cache]. *)
Definition main (a : Args.t) (fs : filesystem) : outcome * filesystem :=
  if (Args.cache_expiration a <? 0)%Z then (Exit 1, fs)
  else if negb (path_exists (Args.output a) fs) then (Exit 1, fs)
  else
    match fetch_all (Args.rss_urls a) (Args.rss_http_timeout a) ∅ with
    | None => (Exit 1, fs)
    | Some news =>
        if bool_decide (news = ∅) then (Exit 0, fs)
        else
          match
            cache0 <- read_cache pickle_loads (Args.cache a) fs ;;;
            scrub_cache int_literal (clock 0) cache0
          with
          | Raise e => (Uncaught e, fs)
          | Ok cache1 =>
              match main_update a 1 news cache1 fs with
              | (Raise e, fs2) => (Uncaught e, fs2)
              | (Ok (_, cache2), fs2) =>
                  (Returned,
                   write_cache pickle_dumps cache2 (Args.cache a) fs2)
              end
          end
    end.

(** What [parse_args()] comes to on line 68: the namespace, or the exit of
    [argparse] itself (status 2 on a usage error, 0 after [--help]). *)
Inductive parsed : Type :=
  | Namespace (a : Args.t)
  | ArgparseExit (code : Z).

(** [main()] from its first line. *)
Definition main_process (args : parsed) (fs : filesystem)
    : outcome * filesystem :=
  match args with
  | ArgparseExit code => (Exit code, fs)
  | Namespace a => main a fs
  end.

End Main.

(** ** Notions used in the statements *)

Section Verdict.

Variable int_literal : string -> option Z.

(** A value survives the scrub pass at [time_now]: [int] accepts it and
    the expiration is not below [time_now]. *)
Definition keeps (time_now : Q) (v : pyval) : bool :=
  match py_int int_literal v with
  | Ok expiration => negb (int_lt_float expiration time_now)
  | Raise _ => false
  end.

(** [int] rejects the value with a [TypeError]. *)
Definition rejected (v : pyval) : Prop :=
  py_int int_literal v = Raise TypeError.

#[global] Instance rejected_dec (v : pyval) : Decision (rejected v).
Proof. unfold rejected. apply _. Defined.

(** Two scrub passes in a row at the same time. *)
Definition scrub_twice (time_now : Q) (cache : gmap pykey pyval)
    : result (gmap pykey pyval) :=
  cache' <- scrub_cache int_literal time_now cache ;;;
  scrub_cache int_literal time_now cache'.

End Verdict.

(** The lines of the entries of [data] among [urls], in that order. *)
Fixpoint lines (handle : pykey) (data : gmap pykey (pykey * pykey))
    (urls : list pykey) : string :=
  match urls with
  | [] => ""
  | url :: rest =>
      match data !! url with
      | Some attrs => format_message url attrs handle
      | None => ""
      end ++ lines handle data rest
  end.

(** The entries whose write does not stall. *)
Definition unstalled (write_stalls : pykey → bool)
    (data : gmap pykey (pykey * pykey)) : gmap pykey (pykey * pykey) :=
  filter (λ kv, write_stalls kv.1 = false) data.

(** The entries that the cache does not know. *)
Definition unknown (cache : gmap pykey pyval)
    (news : gmap pykey (pykey * pykey)) : gmap pykey (pykey * pykey) :=
  filter (λ kv, cache !! kv.1 = None) news.

(** ** Sample oracles, for the examples *)

(** Signed decimal numerals, the plainest strings [int] accepts. *)
Definition digit_of (c : ascii) : option Z :=
  let n := nat_of_ascii c in
  if (48 <=? n)%nat && (n <=? 57)%nat then Some (Z.of_nat (n - 48)) else None.

Fixpoint digits_value (acc : Z) (s : string) : option Z :=
  match s with
  | EmptyString => Some acc
  | String c rest =>
      match digit_of c with
      | Some d => digits_value (10 * acc + d) rest
      | None => None
      end
  end.

Definition decimal_literal (s : string) : option Z :=
  match s with
  | EmptyString => None
  | String "-" (String c rest) => Z.opp <$> digits_value 0 (String c rest)
  | String "-" EmptyString => None
  | _ => digits_value 0 s
  end.

(** A serialisation of dictionaries to text, standing for [pickle]: the
    binary digits of the code of the dictionary. *)
Definition pyval_to_sum (v : pyval) : option (Z + string) :=
  match v with
  | PyNone => None
  | PyInt z => Some (inl z)
  | PyStr s => Some (inr s)
  end.

Definition pyval_of_sum (o : option (Z + string)) : pyval :=
  match o with
  | None => PyNone
  | Some (inl z) => PyInt z
  | Some (inr s) => PyStr s
  end.

#[global] Instance pyval_countable : Countable pyval.
Proof.
  apply (inj_countable' pyval_to_sum pyval_of_sum). by intros [].
Defined.

Fixpoint pos_to_bits (p : positive) : string :=
  match p with
  | xH => ""
  | xO q => String "0" (pos_to_bits q)
  | xI q => String "1" (pos_to_bits q)
  end.

Fixpoint bits_to_pos (s : string) : option positive :=
  match s with
  | EmptyString => Some xH
  | String c rest =>
      if Ascii.eqb c "0" then xO <$> bits_to_pos rest
      else if Ascii.eqb c "1" then xI <$> bits_to_pos rest
      else None
  end.

Definition sample_dumps (data : gmap pykey pyval) : string :=
  pos_to_bits (encode data).

Definition sample_loads (contents : string) : result (gmap pykey pyval) :=
  match bits_to_pos contents ≫= decode with
  | Some data => Ok data
  | None => Raise UnpicklingError
  end.

(** A clock stopped at [x]. *)
Definition stopped_clock (x : Q) : nat → Q := λ _, x.

(** A clock that advances by one second from one reading to the next. *)
Definition ticking_clock (start : Z) : nat → Q :=
  λ n, inject_Z (start + Z.of_nat n).

(** The write of the line of [url] stalls, no other does. *)
Definition stalls_on (url : pykey) : pykey → bool :=
  λ k, bool_decide (k = url).

Definition never_stalls : pykey → bool := λ _, false.

(** One feed, with one entry. *)
Definition sample_get : string → Z → result string :=
  λ url _,
    if String.eqb url "http://feed" then Ok "<rss>a</rss>"
    else Raise RequestException.

Definition sample_feed : string → list (gmap string string) :=
  λ _, [ {[ "link" := "http://a"; "title" := "Title A";
            "category" := "cat" ]} ].

Definition sample_args (cache_init : bool) : Args.t :=
  {| Args.verbosity := false;
     Args.rss_urls := ["http://feed"];
     Args.rss_http_timeout := 30;
     Args.handle := Some "bot";
     Args.output := "/tmp/out";
     Args.cache := Some "/tmp/cache";
     Args.cache_expiration := 100;
     Args.cache_init := cache_init;
     Args.sleep := 2 |}.

(** The output file exists and is empty; there is no cache file. *)
Definition sample_fs : filesystem := {[ "/tmp/out" := "" ]}.

(** Two parsed entries, the first of them known to the cache. *)
Definition sample_news : gmap pykey (pykey * pykey) :=
  {[ Some "u1" := (Some "T1", None); Some "u2" := (Some "T2", None) ]}.

Definition sample_cache : gmap pykey pyval := {[ Some "u1" := PyInt 1050 ]}.

(** A cache with a live record, a record that is not a number and an
    expired record. *)
Definition sample_snapshot : gmap pykey pyval :=
  {[ Some "a" := PyInt 2000; Some "b" := PyStr "soon"; Some "c" := PyInt 999 ]}.

(** The news the sample feed gives. *)
Definition sample_fetched : gmap pykey (pykey * pykey) :=
  {[ Some "http://a" := (Some "Title A", Some "cat") ]}.

(** A cache file that holds a record with the value [None]. *)
Definition sample_fs_none : filesystem :=
  {[ "/tmp/out" := "";
     "/tmp/cache" := sample_dumps {[ Some "http://x" := PyNone ]} ]}.


(** The arguments [a] with [--sleep] set to [secs]. *)
Definition with_sleep (secs : Z) (a : Args.t) : Args.t :=
  {| Args.verbosity := Args.verbosity a;
     Args.rss_urls := Args.rss_urls a;
     Args.rss_http_timeout := Args.rss_http_timeout a;
     Args.handle := Args.handle a;
     Args.output := Args.output a;
     Args.cache := Args.cache a;
     Args.cache_expiration := Args.cache_expiration a;
     Args.cache_init := Args.cache_init a;
     Args.sleep := secs |}.

(** A feed with two entries. *)
Definition sample_feed_two : string → list (gmap string string) :=
  λ _, [ {[ "link" := "http://a"; "title" := "Title A" ]};
         {[ "link" := "http://b"; "title" := "Title B" ]} ].

(** ** Properties of the dictionary operations *)

Lemma keys_NoDup {V : Type} (d : gmap pykey V) : NoDup (keys d).
Proof. apply NoDup_fst_map_to_list. Qed.

Lemma elem_of_keys {V : Type} (d : gmap pykey V) (k : pykey) :
  k ∈ keys d ↔ is_Some (d !! k).
Proof.
  unfold keys. rewrite list_elem_of_fmap. split.
  - intros ([k' v] & -> & Hin). apply elem_of_map_to_list in Hin. eauto.
  - intros [v Hv]. exists (k, v). split; [done|].
    by apply elem_of_map_to_list.
Qed.

Lemma dict_contains_true {V : Type} (k : pykey) (d : gmap pykey V) :
  dict_contains k d = true ↔ is_Some (d !! k).
Proof. unfold dict_contains. apply bool_decide_eq_true. Qed.

Lemma dict_contains_false {V : Type} (k : pykey) (d : gmap pykey V) :
  dict_contains k d = false ↔ d !! k = None.
Proof.
  unfold dict_contains. rewrite bool_decide_eq_false.
  by rewrite eq_None_not_Some.
Qed.

Lemma int_lt_float_spec (i : Z) (x : Q) :
  int_lt_float i x = true ↔ (inject_Z i < x)%Q.
Proof.
  unfold int_lt_float. destruct (Qlt_le_dec (inject_Z i) x) as [Hlt|Hle].
  - tauto.
  - split; [discriminate|]. intros Hlt. exfalso.
    exact (Qlt_not_le _ _ Hlt Hle).
Qed.

(** ** The scrub pass *)

Lemma rejected_None (int_literal : string → option Z) (v : pyval) :
  rejected int_literal v ↔ v = PyNone.
Proof.
  unfold rejected, py_int. split; [|by intros ->].
  destruct v as [|z|s]; [done|done|]. by destruct (int_literal s).
Qed.

Section ScrubFacts.

Variable int_literal : string -> option Z.
Implicit Types (cache : gmap pykey pyval) (ks : list pykey) (now : Q).

Local Abbreviation int' := (py_int int_literal).
Local Abbreviation keeps' := (keeps int_literal).
Local Abbreviation rejected' := (rejected int_literal).
Local Abbreviation scrub_key' := (scrub_key int_literal).
Local Abbreviation scrub_keys' := (scrub_keys int_literal).

Lemma py_int_raises v e :
  int' v = Raise e → e = ValueError ∨ e = TypeError.
Proof.
  unfold py_int.
  destruct v as [|z|s]; [|done|destruct (int_literal s)]; naive_solver.
Qed.

Lemma keeps_not_rejected now v : keeps' now v = true → ¬ rejected' v.
Proof.
  unfold keeps, rejected.
  intros Hk Hr. by rewrite Hr in Hk.
Qed.

(** One turn on a record that [int] does not reject. *)
Lemma scrub_key_Ok now key cache v :
  cache !! key = Some v → ¬ rejected' v →
  scrub_key' now key cache
  = Ok (if keeps' now v then cache else delete key cache).
Proof.
  intros Hv Hrej.
  unfold scrub_key, dict_get, dict_pop.
  rewrite Hv. simpl.
  unfold keeps, rejected in *.
  destruct (py_int int_literal v) as [z|e] eqn:Hint.
  - by destruct (int_lt_float z now).
  - destruct (py_int_raises v e Hint) as [-> | ->]; [done|].
    by destruct Hrej.
Qed.

(** One turn on a record that [int] rejects: the exception escapes. *)
Lemma scrub_key_TypeError now key cache v :
  cache !! key = Some v → rejected' v →
  scrub_key' now key cache = Raise TypeError.
Proof.
  intros Hv Hrej.
  unfold scrub_key, dict_get.
  rewrite Hv. simpl. by rewrite Hrej.
Qed.

(** The loop over distinct keys of the dictionary, none of them rejected,
    returns, and filters the records of these keys. *)
Lemma scrub_keys_Ok now ks cache :
  NoDup ks →
  (∀ k, k ∈ ks → ∃ v, cache !! k = Some v ∧ ¬ rejected' v) →
  scrub_keys' now ks cache
  = Ok (filter (λ kv, kv.1 ∈ ks → keeps' now kv.2 = true) cache).
Proof.
  revert cache. induction ks as [|key rest IH]; intros cache Hnd Hks.
  - simpl. f_equal. symmetry. apply map_filter_id.
    intros i x _ Hin. by apply elem_of_nil in Hin.
  - apply NoDup_cons in Hnd as [Hfresh Hnd].
    destruct (Hks key) as (v & Hv & Hrej); [left|].
    simpl.
    fold (scrub_key' now key cache).
    rewrite (scrub_key_Ok now key cache v Hv Hrej). simpl.
    fold (scrub_keys' now rest (if keeps' now v then cache else delete key cache)).
    rewrite IH; [|done|].
    + f_equal. apply map_eq. intros i. apply option_eq. intros x.
      rewrite !map_lookup_filter_Some. simpl.
      destruct (decide (i = key)) as [->|Hne].
      * destruct (keeps' now v) eqn:Hk.
        -- rewrite Hv. split.
           ++ intros [Hx _]. split; [done|]. intros _. congruence.
           ++ intros [Hx _]. split; [done|]. intros Hin. done.
        -- rewrite lookup_delete_eq. split; [by intros [? _]|].
           intros [Hx Hkeep]. rewrite Hv in Hx. injection Hx as <-.
           rewrite Hkeep in Hk; [done|left].
      * assert ((if keeps' now v then cache else delete key cache) !! i
                = cache !! i) as ->.
        { destruct (keeps' now v); [done|]. by rewrite lookup_delete_ne. }
        rewrite elem_of_cons. split.
        -- intros [Hx Hkeep]. split; [done|].
           intros [?|Hin]; [done|]. by apply Hkeep.
        -- intros [Hx Hkeep]. split; [done|].
           intros Hin. apply Hkeep. by right.
    + intros k Hk. destruct (Hks k) as (w & Hw & Hrejw); [by right|].
      exists w. split; [|done].
      destruct (keeps' now v); [done|].
      rewrite lookup_delete_ne; [done|]. intros ->. done.
Qed.

(** The loop over distinct keys of the dictionary, one of them rejected,
    raises [TypeError]. *)
Lemma scrub_keys_TypeError now ks cache :
  NoDup ks →
  (∀ k, k ∈ ks → is_Some (cache !! k)) →
  (∃ k v, k ∈ ks ∧ cache !! k = Some v ∧ rejected' v) →
  scrub_keys' now ks cache = Raise TypeError.
Proof.
  revert cache. induction ks as [|key rest IH]; intros cache Hnd Hks Hbad.
  - destruct Hbad as (k & v & Hin & _). by apply elem_of_nil in Hin.
  - apply NoDup_cons in Hnd as [Hfresh Hnd].
    destruct (Hks key) as [v Hv]; [left|].
    simpl. fold (scrub_key' now key cache).
    destruct (decide (rejected' v)) as [Hrej|Hrej].
    { by rewrite (scrub_key_TypeError now key cache v Hv Hrej). }
    rewrite (scrub_key_Ok now key cache v Hv Hrej). simpl.
    fold (scrub_keys' now rest (if keeps' now v then cache else delete key cache)).
    assert (∀ k, k ∈ rest →
              (if keeps' now v then cache else delete key cache) !! k
              = cache !! k) as Hsame.
    { intros k Hk. destruct (keeps' now v); [done|].
      rewrite lookup_delete_ne; [done|]. by intros ->. }
    apply IH; [done| |].
    + intros k Hk. rewrite Hsame; [|done]. apply Hks. by right.
    + destruct Hbad as (k & w & Hin & Hw & Hrejw).
      apply elem_of_cons in Hin as [->|Hin].
      { rewrite Hv in Hw. injection Hw as <-. done. }
      exists k, w. by rewrite Hsame.
Qed.

Lemma scrub_cache_Ok now cache :
  (∀ k v, cache !! k = Some v → ¬ rejected' v) →
  scrub_cache int_literal now cache
  = Ok (filter (λ kv, keeps' now kv.2 = true) cache).
Proof.
  intros Hok. unfold scrub_cache.
  rewrite scrub_keys_Ok; [|apply keys_NoDup|].
  - f_equal. apply map_filter_ext. intros i x Hx. simpl. split.
    + intros Hkeep. apply Hkeep. apply elem_of_keys. eauto.
    + intros Hkeep _. done.
  - intros k [v Hv]%elem_of_keys. exists v. split; [done|]. by eapply Hok.
Qed.

Lemma scrub_cache_TypeError now cache k v :
  cache !! k = Some v → rejected' v →
  scrub_cache int_literal now cache = Raise TypeError.
Proof.
  intros Hv Hrej. unfold scrub_cache.
  apply scrub_keys_TypeError; [apply keys_NoDup| |].
  - intros k' Hk'. by apply elem_of_keys.
  - exists k, v. split; [|done]. apply elem_of_keys. eauto.
Qed.

(** The pass does the same whatever the order in which the keys are
    walked. *)
Lemma scrub_keys_any_order now ks cache :
  NoDup ks →
  (∀ k, k ∈ ks ↔ is_Some (cache !! k)) →
  scrub_keys' now ks cache = scrub_cache int_literal now cache.
Proof.
  intros Hnd Hks.
  destruct (decide (map_Forall (λ _ v, ¬ rejected' v) cache)) as [Hok|Hbad].
  - rewrite scrub_cache_Ok by done. rewrite scrub_keys_Ok; [|done|].
    + f_equal. apply map_filter_ext. intros i x Hx. simpl. split.
      * intros Hkeep. apply Hkeep. apply Hks. eauto.
      * intros Hkeep _. done.
    + intros k [v Hv]%Hks. exists v. split; [done|]. by eapply Hok.
  - apply map_not_Forall in Hbad as (k & v & Hv & Hrej); [|apply _].
    apply dec_stable in Hrej.
    rewrite (scrub_cache_TypeError now cache k v Hv Hrej).
    apply scrub_keys_TypeError; [done| |].
    + intros k' Hk'. by apply Hks.
    + exists k, v. split; [|done]. apply Hks. eauto.
Qed.

(** A pass that returns met no rejected value and returns the filtered
    dictionary. *)
Lemma scrub_cache_inv now cache cache' :
  scrub_cache int_literal now cache = Ok cache' →
  (∀ k v, cache !! k = Some v → ¬ rejected' v)
  ∧ cache' = filter (λ kv, keeps' now kv.2 = true) cache.
Proof.
  intros Hrun.
  assert (∀ k v, cache !! k = Some v → ¬ rejected' v) as Hok.
  { intros k v Hv Hrej.
    rewrite (scrub_cache_TypeError now cache k v Hv Hrej) in Hrun.
    discriminate. }
  split; [done|]. rewrite scrub_cache_Ok in Hrun; [|done]. congruence.
Qed.

(** Every record of a scrubbed dictionary survives a pass at the same
    time. *)
Lemma scrub_cache_fixpoint now cache :
  (∀ k v, cache !! k = Some v → keeps' now v = true) →
  scrub_cache int_literal now cache = Ok cache.
Proof.
  intros Hall. rewrite scrub_cache_Ok.
  - f_equal. apply map_filter_id. intros i x Hx. simpl. by eapply Hall.
  - intros k v Hv. apply (keeps_not_rejected now). by eapply Hall.
Qed.

(** What the pass does achieve for a corrupt record: next to a live
    record, a string that [int] cannot read is removed, and nothing is
    raised. *)
Lemma scrub_cache_isolates_bad_literal now k1 k2 expiration s :
  k1 ≠ k2 →
  int_literal s = None →
  ¬ (inject_Z expiration < now)%Q →
  scrub_cache int_literal now {[ k1 := PyInt expiration; k2 := PyStr s ]}
  = Ok {[ k1 := PyInt expiration ]}.
Proof.
  intros Hne Hbad Hlive.
  assert (keeps' now (PyInt expiration) = true) as Hkeep.
  { unfold keeps. simpl. apply negb_true_iff, not_true_iff_false.
    by rewrite int_lt_float_spec. }
  assert (keeps' now (PyStr s) = false) as Hdrop.
  { unfold keeps. simpl. by rewrite Hbad. }
  rewrite scrub_cache_Ok.
  - f_equal. rewrite map_filter_insert_True by done.
    rewrite map_filter_singleton_False; [done|].
    simpl. by rewrite Hdrop.
  - intros k v Hv Hrej. apply rejected_None in Hrej as ->.
    apply lookup_insert_Some in Hv as [[_ ?]|[_ Hv]]; [done|].
    by apply lookup_singleton_Some in Hv as [_ ?].
Qed.

Lemma keeps_spec now v expiration :
  py_int int_literal v = Ok expiration →
  keeps' now v = true ↔ ¬ (inject_Z expiration < now)%Q.
Proof.
  intros Hint. unfold keeps. rewrite Hint.
  rewrite negb_true_iff, <- not_true_iff_false.
  by rewrite int_lt_float_spec.
Qed.

End ScrubFacts.

(** X20. The expiration boundary on a cache that the pass can walk to the
    end (no value that [int] rejects with a [TypeError]): the pass returns,
    and a record whose value [int] reads as [expiration] is removed exactly
    when [expiration < now] and kept unchanged otherwise; so a record with
    [expiration == now] is kept and one with [expiration == now - 1] is
    removed. *)
Theorem scrub_expiration_boundary (int_literal : string → option Z)
    (now : Q) (cache : gmap pykey pyval) :
  (∀ k v, cache !! k = Some v → ¬ rejected int_literal v) →
  ∃ cache',
    scrub_cache int_literal now cache = Ok cache'
    ∧ ∀ key v expiration,
        cache !! key = Some v →
        py_int int_literal v = Ok expiration →
        (cache' !! key = None ↔ (inject_Z expiration < now)%Q)
        ∧ (cache' !! key = Some v ↔ ¬ (inject_Z expiration < now)%Q)
        ∧ ((inject_Z expiration == now)%Q → cache' !! key = Some v)
        ∧ ((inject_Z expiration == now - 1)%Q → cache' !! key = None).
Proof.
  intros Hok. eexists. split; [by apply scrub_cache_Ok|].
  intros key v expiration Hv Hint.
  pose proof (keeps_spec int_literal now v expiration Hint) as Hkeep.
  assert (filter (λ kv, keeps int_literal now kv.2 = true) cache !! key = Some v
          ↔ ¬ (inject_Z expiration < now)%Q) as Hsome.
  { rewrite map_lookup_filter_Some. simpl. rewrite Hkeep. tauto. }
  assert (filter (λ kv, keeps int_literal now kv.2 = true) cache !! key = None
          ↔ (inject_Z expiration < now)%Q) as Hnone.
  { rewrite map_lookup_filter_None. simpl. split.
    - intros [Habs|Hdrop]; [congruence|].
      specialize (Hdrop v Hv). rewrite Hkeep in Hdrop.
      destruct (Qlt_le_dec (inject_Z expiration) now) as [?|Hle]; [done|].
      destruct Hdrop. by apply Qle_not_lt.
    - intros Hlt. right. intros w Hw. rewrite Hv in Hw. injection Hw as <-.
      rewrite Hkeep. tauto. }
  split; [done|]. split; [done|]. split.
  - intros Heq. apply Hsome. rewrite Heq. apply Qlt_irrefl.
  - intros Heq. apply Hnone. rewrite Heq.
    rewrite <- (Qplus_0_r now) at 2. unfold Qminus.
    apply Qplus_lt_r. done.
Qed.

(** C2. The expiration boundary fails beside a record that [int] rejects:
    on the snapshot [{'a': 999, 'b': None}], at time 1000, the record [a] has
    expired and should be removed, but [int(None)] raises [TypeError], which
    line 200 does not catch; in whichever order the two keys are walked the
    pass ends in that exception, and no scrubbed dictionary comes out of it
    (the defect that breaks the isolation of corrupt records). *)
Theorem scrub_cache_expired_beside_none (int_literal : string → option Z) :
  scrub_cache int_literal (1000 # 1)
    {[ Some "a" := PyInt 999; Some "b" := PyNone ]}
  = Raise TypeError
  ∧ scrub_keys int_literal (1000 # 1) [Some "a"; Some "b"]
      {[ Some "a" := PyInt 999; Some "b" := PyNone ]}
    = Raise TypeError
  ∧ scrub_keys int_literal (1000 # 1) [Some "b"; Some "a"]
      {[ Some "a" := PyInt 999; Some "b" := PyNone ]}
    = Raise TypeError.
Proof.
  split; [|split].
  - apply (scrub_cache_TypeError int_literal _ _ (Some "b") PyNone).
    + by simplify_map_eq.
    + reflexivity.
  - vm_compute. reflexivity.
  - vm_compute. reflexivity.
Qed.

(** C3. Corrupt record isolation fails for a value that is not a string:
    on the snapshot [{'a': 2000, 'b': None}], at time 1000, [int(None)]
    raises [TypeError], which line 200 does not catch, and the pass ends in
    that exception instead of returning [{'a': 2000}]. *)
Theorem scrub_cache_none_value_raises (int_literal : string → option Z) :
  scrub_cache int_literal (1000 # 1)
    {[ Some "a" := PyInt 2000; Some "b" := PyNone ]}
  = Raise TypeError.
Proof.
  apply (scrub_cache_TypeError int_literal _ _ (Some "b") PyNone).
  - by simplify_map_eq.
  - reflexivity.
Qed.

(** C4. Scrub idempotence: two passes in a row at the same time do what one
    pass does, whether it returns a dictionary or ends in an exception. *)
Theorem scrub_cache_idempotent (int_literal : string → option Z)
    (now : Q) (cache : gmap pykey pyval) :
  scrub_twice int_literal now cache = scrub_cache int_literal now cache.
Proof.
  unfold scrub_twice.
  destruct (scrub_cache int_literal now cache) as [cache'|e] eqn:Hrun;
    [|done].
  simpl. apply scrub_cache_inv in Hrun as [_ ->].
  apply scrub_cache_fixpoint. intros k v Hv.
  by apply map_lookup_filter_Some in Hv as [_ Hkeep].
Qed.

(** ** The emission step *)

Lemma string_app_nil_r (s : string) : s ++ "" = s.
Proof.
  induction s as [|c s IH]; [done|].
  change (String c s ++ "") with (String c (s ++ "")). by rewrite IH.
Qed.

Lemma string_app_assoc (s t u : string) : (s ++ t) ++ u = s ++ (t ++ u).
Proof.
  induction s as [|c s IH]; [done|].
  change ((String c s ++ t) ++ u) with (String c ((s ++ t) ++ u)).
  by rewrite IH.
Qed.

Lemma append_file_twice (path m1 m2 : string) (fs : filesystem) :
  append_file path m2 (append_file path m1 fs) = append_file path (m1 ++ m2) fs.
Proof.
  unfold append_file. rewrite lookup_insert_eq, insert_insert_eq. simpl.
  by rewrite string_app_assoc.
Qed.

Lemma append_file_nothing (path : string) (fs : filesystem) :
  is_Some (fs !! path) → append_file path "" fs = fs.
Proof.
  intros [old Hold]. unfold append_file. rewrite Hold. simpl.
  rewrite string_app_nil_r. by apply insert_id.
Qed.

Lemma append_file_exists (path msg : string) (fs : filesystem) :
  is_Some (append_file path msg fs !! path).
Proof. unfold append_file. rewrite lookup_insert_eq. eauto. Qed.

Lemma lines_ext (handle : pykey) (d1 d2 : gmap pykey (pykey * pykey))
    (urls : list pykey) :
  (∀ k, k ∈ urls → d1 !! k = d2 !! k) →
  lines handle d1 urls = lines handle d2 urls.
Proof.
  induction urls as [|url rest IH]; intros Hsame; simpl; [done|].
  rewrite Hsame by left. rewrite IH; [done|].
  intros k Hk. apply Hsame. by right.
Qed.

Section OutputFacts.

Variable write_stalls : pykey → bool.
Implicit Types (data : gmap pykey (pykey * pykey)) (urls : list pykey).

Lemma lookup_unstalled data k :
  unstalled write_stalls data !! k
  = if write_stalls k then None else data !! k.
Proof.
  unfold unstalled. apply option_eq. intros x.
  rewrite map_lookup_filter_Some. simpl.
  destruct (write_stalls k); [|tauto].
  split; [|done]. by intros [_ ?].
Qed.

Lemma time_sleep_Ok (secs : Z) : (0 ≤ secs)%Z → time_sleep secs = Ok tt.
Proof.
  intros Hsecs. unfold time_sleep.
  destruct (Z.ltb_spec secs 0) as [?|?]; [lia|done].
Qed.

(** The loop of [write_data] over distinct keys of the dictionary, when the
    sleep is not negative or every write stalls: it returns, the stalled
    entries are popped and the lines of the others are appended. *)
Lemma write_entries_spec output handle sleep urls data fs :
  (0 ≤ sleep)%Z ∨ (∀ k, k ∈ urls → write_stalls k = true) →
  NoDup urls →
  (∀ k, k ∈ urls → is_Some (data !! k)) →
  is_Some (fs !! output) →
  write_entries write_stalls output handle sleep urls data fs
  = (Ok (filter (λ kv, kv.1 ∈ urls → write_stalls kv.1 = false) data),
     append_file output (lines handle (unstalled write_stalls data) urls) fs).
Proof.
  revert data fs.
  induction urls as [|url rest IH]; intros data fs Hsleep Hnd Hin Hfile.
  - simpl. rewrite append_file_nothing by done. do 2 f_equal.
    symmetry. apply map_filter_id. intros i x _ Hi.
    by apply elem_of_nil in Hi.
  - apply NoDup_cons in Hnd as [Hfresh Hnd].
    destruct (Hin url) as [attrs Hattrs]; [left|].
    assert ((0 ≤ sleep)%Z ∨ (∀ k, k ∈ rest → write_stalls k = true))
      as Hsleep'.
    { destruct Hsleep as [?|Hall]; [by left|right].
      intros k Hk. apply Hall. by right. }
    simpl. unfold write_entry, dict_get, dict_pop. rewrite Hattrs. simpl.
    rewrite lookup_unstalled, Hattrs.
    destruct (write_stalls url) eqn:Hstall; simpl.
    + rewrite IH; [|done|done| |done].
      * do 2 f_equal.
        -- apply map_eq. intros i. apply option_eq. intros x.
           rewrite !map_lookup_filter_Some. simpl.
           destruct (decide (i = url)) as [->|Hne].
           ++ rewrite lookup_delete_eq. split; [by intros [? _]|].
              intros [_ Hp]. rewrite Hp in Hstall; [done|left].
           ++ rewrite lookup_delete_ne by done.
              rewrite elem_of_cons. split.
              ** intros [Hx Hp]. split; [done|].
                 intros [?|Hi]; [done|]. by apply Hp.
              ** intros [Hx Hp]. split; [done|].
                 intros Hi. apply Hp. by right.
        -- f_equal. apply lines_ext. intros k Hk.
           rewrite !lookup_unstalled, lookup_delete_ne; [done|].
           by intros ->.
      * intros k Hk. rewrite lookup_delete_ne by (by intros ->).
        apply Hin. by right.
    + assert (time_sleep sleep = Ok tt) as ->.
      { destruct Hsleep as [?|Hall]; [by apply time_sleep_Ok|].
        rewrite Hall in Hstall by left. done. }
      rewrite IH; [|done|done| |apply append_file_exists].
      * rewrite append_file_twice. do 2 f_equal.
        apply map_filter_ext. intros i x _. simpl.
        rewrite elem_of_cons. split.
        -- intros Hp [->|Hi]; [done|]. by apply Hp.
        -- intros Hp Hi. apply Hp. by right.
      * intros k Hk. apply Hin. by right.
Qed.

(** [write_data] returns when the sleep is not negative or every write
    stalls: the dictionary loses the stalled entries, the file gains the
    lines of the others. *)
Lemma write_data_spec data output handle sleep fs :
  (0 ≤ sleep)%Z ∨ (∀ k, is_Some (data !! k) → write_stalls k = true) →
  write_data write_stalls data output handle sleep fs
  = (Ok (unstalled write_stalls data),
     append_file output
       (lines handle (unstalled write_stalls data) (keys data)) fs).
Proof.
  intros Hsleep. unfold write_data.
  rewrite write_entries_spec;
    [| |apply keys_NoDup| |apply append_file_exists].
  - rewrite append_file_twice. simpl. do 2 f_equal.
    unfold unstalled. apply map_filter_ext. intros i x Hx. simpl.
    split; [|done]. intros Hp. apply Hp. apply elem_of_keys. eauto.
  - destruct Hsleep as [?|Hall]; [by left|right].
    intros k Hk. apply Hall. by apply elem_of_keys.
  - intros k Hk. by apply elem_of_keys.
Qed.

(** With a negative sleep the loop is left through the [IOError] of
    [time.sleep] at the first key whose write does not stall, right after
    its line has been written; the keys before it have stalled. *)
Lemma write_entries_negative_sleep output handle sleep urls data fs :
  (sleep < 0)%Z →
  NoDup urls →
  (∀ k, k ∈ urls → is_Some (data !! k)) →
  (∃ k, k ∈ urls ∧ write_stalls k = false) →
  ∃ (before : list pykey) url attrs (after : list pykey),
    urls = (before ++ url :: after)%list
    ∧ (∀ k, k ∈ before → write_stalls k = true)
    ∧ write_stalls url = false
    ∧ data !! url = Some attrs
    ∧ write_entries write_stalls output handle sleep urls data fs
      = (Raise IOError,
         append_file output (format_message url attrs handle) fs).
Proof.
  intros Hneg. revert data.
  induction urls as [|u rest IH]; intros data Hnd Hin Hsome.
  - destruct Hsome as (k & Hk & _). by apply elem_of_nil in Hk.
  - apply NoDup_cons in Hnd as [Hfresh Hnd].
    destruct (Hin u) as [attrs Hattrs]; [left|].
    destruct (write_stalls u) eqn:Hstall.
    + destruct (IH (delete u data) Hnd)
        as (before & url & attrs' & after & -> & Hbefore & Hurl & Hlook & Hrun).
      { intros k Hk. rewrite lookup_delete_ne by (by intros ->).
        apply Hin. by right. }
      { destruct Hsome as (k & [->|Hk]%elem_of_cons & Hfine);
          [congruence|eauto]. }
      exists (u :: before), url, attrs', after.
      split; [done|]. split; [|split; [done|split]].
      * intros k [->|Hk]%elem_of_cons; [done|by apply Hbefore].
      * rewrite lookup_delete_ne in Hlook; [done|].
        intros ->. apply Hfresh. apply elem_of_app. right. left.
      * simpl. unfold write_entry, dict_get, dict_pop.
        rewrite Hattrs. simpl. rewrite Hstall. simpl. exact Hrun.
    + exists [], u, attrs, rest. split; [done|].
      split; [by intros k Hk%elem_of_nil|]. split; [done|]. split; [done|].
      simpl. unfold write_entry, dict_get. rewrite Hattrs. simpl.
      rewrite Hstall. unfold time_sleep.
      destruct (Z.ltb_spec sleep 0) as [?|?]; [done|lia].
Qed.

End OutputFacts.

(** ** Reconciliation, lines 96-107 *)

Lemma lookup_unknown (cache : gmap pykey pyval)
    (news : gmap pykey (pykey * pykey)) (k : pykey) :
  unknown cache news !! k
  = match cache !! k with Some _ => None | None => news !! k end.
Proof.
  unfold unknown. apply option_eq. intros x.
  rewrite map_lookup_filter_Some. simpl.
  destruct (cache !! k) as [v|]; [|tauto].
  split; [|done]. by intros [_ ?].
Qed.

(** The last loop: a record for each key of the list. *)
Lemma record_new_lookup (expiration : Z) (ks : list pykey)
    (cache : gmap pykey pyval) (k : pykey) :
  record_new expiration ks cache !! k
  = if decide (k ∈ ks) then Some (PyInt expiration) else cache !! k.
Proof.
  revert cache. induction ks as [|key rest IH]; intros cache; simpl.
  - done.
  - rewrite IH. destruct (decide (k ∈ rest)) as [Hk|Hk].
    + rewrite decide_True; [done|by right].
    + destruct (decide (k = key)) as [->|Hne].
      * rewrite lookup_insert_eq. rewrite decide_True; [done|left].
      * rewrite lookup_insert_ne by done. rewrite decide_False; [done|].
        intros [?|?]%elem_of_cons; done.
Qed.


Section UpdateAnyClock.

Variable write_stalls : pykey → bool.
Variable clock : nat → Q.

Implicit Types (news : gmap pykey (pykey * pykey)).
Implicit Types (cache : gmap pykey pyval) (ks : list pykey).

(** The first loop, whatever the clock returns: each known entry is
    refreshed from a clock reading of its own, made during the loop. *)
Lemma refresh_known_any_clock ttl ks t cache news :
  NoDup ks →
  (∀ k, k ∈ ks → is_Some (news !! k)) →
  ∃ t' cache',
    refresh_known clock ttl ks (t, cache, news)
    = Ok (t', cache', filter (λ kv, kv.1 ∈ ks → cache !! kv.1 = None) news)
    ∧ (t ≤ t' ≤ t + length ks)%nat
    ∧ ∀ k,
        (k ∈ ks → is_Some (cache !! k) →
         ∃ n, (t ≤ n < t')%nat
              ∧ cache' !! k = Some (PyInt (int_of_float (clock n) + ttl)))
        ∧ (¬ (k ∈ ks ∧ is_Some (cache !! k)) → cache' !! k = cache !! k).
Proof.
  revert t cache news.
  induction ks as [|key rest IH]; intros t cache news Hnd Hin.
  - exists t, cache. split; [|split; [simpl; lia|]].
    + simpl. do 2 f_equal. symmetry. apply map_filter_id.
      intros i x _ Hi. by apply elem_of_nil in Hi.
    + intros k. split; [|done]. intros Hk. by apply elem_of_nil in Hk.
  - apply NoDup_cons in Hnd as [Hfresh Hnd].
    destruct (Hin key) as [attrs Hattrs]; [left|].
    simpl. destruct (dict_contains key cache) eqn:Hknown.
    + apply dict_contains_true in Hknown.
      unfold dict_pop. rewrite Hattrs. simpl.
      destruct (IH (S t) (<[key := PyInt (int_of_float (clock t) + ttl)]> cache)
                  (delete key news) Hnd)
        as (t' & cache' & -> & Hle & Hcache').
      { intros k Hk. rewrite lookup_delete_ne by (by intros ->).
        apply Hin. by right. }
      exists t', cache'. split; [|split; [simpl; lia|]].
      * do 2 f_equal. apply map_eq. intros i. apply option_eq. intros x.
        rewrite !map_lookup_filter_Some. simpl.
        destruct (decide (i = key)) as [->|Hne].
        -- rewrite lookup_delete_eq. split; [by intros [? _]|].
           intros [_ Hp]. rewrite Hp in Hknown by left.
           by destruct Hknown.
        -- rewrite lookup_delete_ne, lookup_insert_ne by done.
           rewrite elem_of_cons. split.
           ++ intros [Hx Hp]. split; [done|].
              intros [?|Hi]; [done|]. by apply Hp.
           ++ intros [Hx Hp]. split; [done|].
              intros Hi. apply Hp. by right.
      * intros k. destruct (Hcache' k) as [Hrefreshed Hkept].
        destruct (decide (k = key)) as [->|Hne].
        -- split.
           ++ intros _ _. exists t. split; [lia|].
              rewrite Hkept by (by intros [? _]).
              by rewrite lookup_insert_eq.
           ++ intros Hnot. destruct Hnot. split; [left|done].
        -- rewrite lookup_insert_ne in Hrefreshed, Hkept by done. split.
           ++ intros [?|Hk]%elem_of_cons Hsome; [done|].
              destruct (Hrefreshed Hk Hsome) as (n & Hn & Hrec).
              exists n. split; [lia|done].
           ++ intros Hnot. apply Hkept. intros [Hk Hsome].
              apply Hnot. split; [by right|done].
    + apply dict_contains_false in Hknown.
      destruct (IH t cache news Hnd) as (t' & cache' & -> & Hle & Hcache').
      { intros k Hk. apply Hin. by right. }
      exists t', cache'. split; [|split; [simpl; lia|]].
      * do 2 f_equal. apply map_filter_ext. intros i x _. simpl.
        rewrite elem_of_cons. split.
        -- intros Hp [->|Hi]; [done|]. by apply Hp.
        -- intros Hp Hi. apply Hp. by right.
      * intros k. destruct (Hcache' k) as [Hrefreshed Hkept]. split.
        -- intros [->|Hk]%elem_of_cons Hsome.
           ++ rewrite Hknown in Hsome. by destruct Hsome.
           ++ by apply Hrefreshed.
        -- intros Hnot. apply Hkept. intros [Hk Hsome].
           apply Hnot. split; [by right|done].
Qed.

(** Lines 96-107, whatever the clock returns, when the run only
    initialises the cache or the sleep is not negative: they return; a known
    entry is refreshed from a reading made at or after the [t]-th, the new
    entries still in the news after the emission step all get the
    expiration of the one reading of line 105, and the other keys are left
    alone. The clock is read at most once per parsed entry before line
    105. *)
Lemma main_update_any_clock a t news cache fs :
  Args.cache_init a = true ∨ (0 ≤ Args.sleep a)%Z →
  ∃ t1 cache',
    main_update write_stalls clock a t news cache fs
    = (Ok (unknown cache news, cache'),
       if Args.cache_init a then fs
       else append_file (Args.output a)
              (lines (Args.handle a)
                 (unstalled write_stalls (unknown cache news))
                 (keys (unknown cache news))) fs)
    ∧ (t ≤ t1 ≤ t + length (keys news))%nat
    ∧ ∀ k,
        (news !! k = None → cache' !! k = cache !! k)
        ∧ (is_Some (news !! k) → is_Some (cache !! k) →
           ∃ n, (t ≤ n < t1)%nat
                ∧ cache' !! k
                  = Some (PyInt (int_of_float (clock n)
                                 + Args.cache_expiration a)))
        ∧ (is_Some (news !! k) → cache !! k = None →
           cache' !! k
           = if Args.cache_init a || negb (write_stalls k)
             then Some (PyInt (int_of_float (clock t1)
                               + Args.cache_expiration a))
             else None).
Proof.
  intros Hsleep. unfold main_update.
  destruct (refresh_known_any_clock (Args.cache_expiration a) (keys news) t
              cache news) as (t1 & cache1 & -> & Hle & Hcache1).
  { apply keys_NoDup. }
  { intros k Hk. by apply elem_of_keys. }
  assert (filter (λ kv, kv.1 ∈ keys news → cache !! kv.1 = None) news
          = unknown cache news) as ->.
  { unfold unknown. apply map_filter_ext. intros i x Hx. simpl.
    split; [|done]. intros Hp. apply Hp. apply elem_of_keys. eauto. }
  assert (∃ news2,
            (if Args.cache_init a then (Ok (unknown cache news), fs)
             else write_data write_stalls (unknown cache news)
                    (Args.output a) (Args.handle a) (Args.sleep a) fs)
            = (Ok news2,
               if Args.cache_init a then fs
               else append_file (Args.output a)
                      (lines (Args.handle a)
                         (unstalled write_stalls (unknown cache news))
                         (keys (unknown cache news))) fs)
            ∧ ∀ k, news2 !! k
                   = if Args.cache_init a || negb (write_stalls k)
                     then unknown cache news !! k else None)
    as (news2 & -> & Hnews2).
  { destruct (Args.cache_init a); simpl.
    - eexists. split; [done|]. done.
    - destruct Hsleep as [?|Hsleep]; [done|].
      rewrite write_data_spec by (by left). eexists. split; [done|].
      intros k. rewrite lookup_unstalled. by destruct (write_stalls k). }
  exists t1. eexists. split; [done|]. split; [done|].
  intros k. rewrite record_new_lookup.
  destruct (Hcache1 k) as [Hrefreshed Hkept].
  assert (k ∈ keys news2
          ↔ is_Some (news !! k) ∧ cache !! k = None
            ∧ Args.cache_init a || negb (write_stalls k) = true) as Hk2.
  { rewrite elem_of_keys, Hnews2, lookup_unknown.
    destruct (Args.cache_init a || negb (write_stalls k)),
      (cache !! k) as [v|]; split;
      try (by intros [? ?]); try (by intros (? & ? & ?));
      try (by intros (? & [=] & ?)). }
  split; [|split].
  - intros Hnone. rewrite decide_False.
    + apply Hkept. intros [[x Hx]%elem_of_keys _]. congruence.
    + rewrite Hk2. intros ([x Hx] & _). congruence.
  - intros Hseen Hsome. rewrite decide_False.
    + apply Hrefreshed; [by apply elem_of_keys|done].
    + rewrite Hk2. intros (_ & Hnone & _). rewrite Hnone in Hsome.
      by destruct Hsome.
  - intros Hseen Hnone.
    destruct (Args.cache_init a || negb (write_stalls k)) eqn:Hrec.
    + rewrite decide_True; [done|]. by apply Hk2.
    + rewrite decide_False.
      * rewrite Hkept; [done|]. intros [_ Hsome].
        rewrite Hnone in Hsome. by destruct Hsome.
      * rewrite Hk2. by intros (_ & _ & ?).
Qed.

End UpdateAnyClock.

(** ** The output line *)

Lemma truthy_nonempty (s : string) : s ≠ "" → truthy (Some s) = true.
Proof. intros Hs. simpl. apply negb_true_iff. by apply String.eqb_neq. Qed.

(** C9. Output line format: with a handle (a non-empty string) the line is
    ["[<tag>] <title> | <url>\n"], the tag being ["<handle>-<category>"] for
    a non-empty category and ["<handle>"] for none; without a handle ([None]
    or the empty string) the line is ["<url>\n"]. *)
Theorem format_message_line (url title h : string) (category : pykey) :
  h ≠ "" →
  (∀ c, category = Some c → c ≠ "" →
     format_message (Some url) (Some title, category) (Some h)
     = "[" ++ h ++ "-" ++ c ++ "] " ++ title ++ " | " ++ url ++ LF)
  ∧ (category = None →
     format_message (Some url) (Some title, category) (Some h)
     = "[" ++ h ++ "] " ++ title ++ " | " ++ url ++ LF)
  ∧ format_message (Some url) (Some title, category) None = url ++ LF
  ∧ format_message (Some url) (Some title, category) (Some "") = url ++ LF.
Proof.
  intros Hh. unfold format_message.
  rewrite (truthy_nonempty h Hh). repeat split.
  - intros c -> Hc. cbn [snd fst py_str].
    rewrite (truthy_nonempty c Hc). by rewrite !string_app_assoc.
  - intros ->. reflexivity.
Qed.

Lemma format_message_line_witness :
  "bot" ≠ ""
  ∧ format_message (Some "http://a") (Some "Title A", Some "cat") (Some "bot")
    = "[bot-cat] Title A | http://a" ++ LF.
Proof.
  split; [discriminate|].
  destruct (format_message_line "http://a" "Title A" "bot" (Some "cat"))
    as [Htag _]; [discriminate|].
  apply (Htag "cat"); [reflexivity|discriminate].
Defined.

(** C10. An empty category is formatted like an absent one: with a handle,
    the line is ["[<handle>] <title> | <url>\n"], the same as for the
    category [None]. *)
Theorem format_message_empty_category (url title h : string) :
  h ≠ "" →
  format_message (Some url) (Some title, Some "") (Some h)
  = "[" ++ h ++ "] " ++ title ++ " | " ++ url ++ LF
  ∧ format_message (Some url) (Some title, Some "") (Some h)
    = format_message (Some url) (Some title, None) (Some h).
Proof.
  intros Hh. unfold format_message.
  rewrite (truthy_nonempty h Hh). split; reflexivity.
Qed.

Lemma format_message_empty_category_witness :
  "bot" ≠ ""
  ∧ format_message (Some "http://a") (Some "Title A", Some "") (Some "bot")
    = "[bot] Title A | http://a" ++ LF.
Proof.
  split; [discriminate|].
  apply (format_message_empty_category "http://a" "Title A" "bot").
  discriminate.
Defined.

(** ** Parsing *)

Lemma parse_entry_records (entry : gmap string string)
    (news : gmap pykey (pykey * pykey)) :
  parse_entry entry news
  = <[entry !! "link" := (entry !! "title", entry !! "category")]> news.
Proof.
  unfold parse_entry, entry_pop. cbn.
  by rewrite !lookup_delete_ne by discriminate.
Qed.

Lemma parse_entries_keeps (entries : list (gmap string string))
    (news : gmap pykey (pykey * pykey)) (k : pykey) :
  is_Some (news !! k) → is_Some (parse_entries entries news !! k).
Proof.
  revert news. induction entries as [|entry rest IH]; intros news Hk; [done|].
  simpl. apply IH. rewrite parse_entry_records.
  destruct (decide (entry !! "link" = k)) as [<-|Hne].
  - rewrite lookup_insert_eq. eauto.
  - by rewrite lookup_insert_ne.
Qed.

(** C8. The test of line 162 is false whatever the entry holds, so every
    entry of the feed, also one with neither link nor title, is recorded
    under its link ([None] when it has none): no entry is skipped. *)
Theorem parse_news_never_skips
    (feedparser_parse : string → list (gmap string string))
    (data : string) (news : gmap pykey (pykey * pykey))
    (entry : gmap string string) :
  entry ∈ feedparser_parse data →
  no_link_no_title = false
  ∧ (∀ news0, parse_entry entry news0
              = <[entry !! "link" := (entry !! "title", entry !! "category")]>
                  news0)
  ∧ is_Some (parse_news feedparser_parse data news !! (entry !! "link")).
Proof.
  intros Hin. split; [done|]. split; [apply parse_entry_records|].
  unfold parse_news. revert news.
  induction (feedparser_parse data) as [|e rest IH]; intros news.
  - by apply elem_of_nil in Hin.
  - simpl. apply elem_of_cons in Hin as [->|Hin].
    + apply parse_entries_keeps. rewrite parse_entry_records.
      rewrite lookup_insert_eq. eauto.
    + by apply IH.
Qed.

Lemma parse_news_never_skips_witness :
  (∅ : gmap string string) ∈ [(∅ : gmap string string)]
  ∧ parse_news (λ _, [∅]) "<rss/>" ∅ !! None = Some (None, None).
Proof.
  split; [left|].
  destruct (parse_news_never_skips (λ _, [∅]) "<rss/>" ∅ ∅) as (_ & Hrec & _);
    [left|].
  unfold parse_news. simpl. rewrite Hrec. reflexivity.
Defined.

(** ** The cache file *)

Lemma bits_to_pos_to_bits (p : positive) : bits_to_pos (pos_to_bits p) = Some p.
Proof. induction p as [p IH|p IH|]; simpl; [by rewrite IH..|done]. Qed.

Lemma sample_pickle_round_trip (data : gmap pykey pyval) :
  sample_loads (sample_dumps data) = Ok data.
Proof.
  unfold sample_loads, sample_dumps. rewrite bits_to_pos_to_bits. simpl.
  by rewrite decode_encode.
Qed.

(** C7. Round-trip persistence: at a non-empty path, reading the cache
    after writing the mapping [c] returns [c], as soon as [pickle] reads back
    what it dumped; with no path or the empty path, reading returns the empty
    mapping and writing leaves every file as it was. *)
Theorem cache_round_trip (pickle_dumps : gmap pykey pyval → string)
    (pickle_loads : string → result (gmap pykey pyval))
    (c : gmap pykey pyval) (path : string) (fs : filesystem) :
  pickle_loads (pickle_dumps c) = Ok c →
  path ≠ "" →
  read_cache pickle_loads (Some path)
    (write_cache pickle_dumps c (Some path) fs) = Ok c
  ∧ read_cache pickle_loads None fs = Ok ∅
  ∧ read_cache pickle_loads (Some "") fs = Ok ∅
  ∧ write_cache pickle_dumps c None fs = fs
  ∧ write_cache pickle_dumps c (Some "") fs = fs.
Proof.
  intros Hpickle Hpath. repeat split.
  unfold read_cache, write_cache, path_exists.
  rewrite (truthy_nonempty path Hpath). cbn [negb py_str].
  rewrite lookup_insert_eq.
  rewrite bool_decide_eq_true_2 by eauto. done.
Qed.

Lemma cache_round_trip_witness :
  "/tmp/cache" ≠ ""
  ∧ read_cache sample_loads (Some "/tmp/cache")
      (write_cache sample_dumps {[ Some "http://a" := PyInt 1100 ]}
         (Some "/tmp/cache") ∅)
    = Ok {[ Some "http://a" := PyInt 1100 ]}.
Proof.
  split; [discriminate|].
  apply (cache_round_trip sample_dumps sample_loads
           {[ Some "http://a" := PyInt 1100 ]} "/tmp/cache" ∅).
  - apply sample_pickle_round_trip.
  - discriminate.
Defined.

(** ** The claims on reconciliation and emission *)

(** C1, amended. Reconciliation split, for a run that only initialises the
    cache or whose sleep is not negative, [now] being each time the integer
    part of the clock reading made at the assignment: a parsed entry whose
    url is a key of the scrubbed cache has its record refreshed to
    [now + ttl], from a reading of the loop of lines 96-100, and is left out
    of the news handed to the emission step; a parsed entry whose url is not
    a key stays in these news, and a record with expiration [now + ttl], from
    the reading of line 105, is created for it after the emission step when
    the run only initialises the cache or the write of its line does not
    stall. *)
Theorem reconciliation_split (write_stalls : pykey → bool) (clock : nat → Q)
    (a : Args.t) (t : nat) (news : gmap pykey (pykey * pykey))
    (cache : gmap pykey pyval) (fs : filesystem) :
  Args.cache_init a = true ∨ (0 ≤ Args.sleep a)%Z →
  ∃ t1 to_emit cache' fs',
    main_update write_stalls clock a t news cache fs
    = (Ok (to_emit, cache'), fs')
    ∧ (t ≤ t1)%nat
    ∧ ∀ url attrs, news !! url = Some attrs →
        (is_Some (cache !! url) →
           (∃ n, (t ≤ n < t1)%nat
                 ∧ cache' !! url
                   = Some (PyInt (int_of_float (clock n)
                                  + Args.cache_expiration a)))
           ∧ to_emit !! url = None)
        ∧ (cache !! url = None →
           to_emit !! url = Some attrs
           ∧ (Args.cache_init a = true ∨ write_stalls url = false →
              cache' !! url
              = Some (PyInt (int_of_float (clock t1)
                             + Args.cache_expiration a)))).
Proof.
  intros Hsleep.
  destruct (main_update_any_clock write_stalls clock a t news cache fs Hsleep)
    as (t1 & cache' & Hrun & Hle & Hcache').
  exists t1. eexists _, cache', _. split; [exact Hrun|]. split; [lia|].
  intros url attrs Hattrs.
  destruct (Hcache' url) as (_ & Hknown & Hnew). split.
  - intros Hsome. split; [by apply Hknown|].
    rewrite lookup_unknown. by destruct Hsome as [v ->].
  - intros Hnone. rewrite lookup_unknown, Hnone. split; [done|].
    intros Hrec. rewrite Hnew by done.
    destruct Hrec as [-> | ->]; [done|]. by rewrite orb_true_r.
Qed.

Lemma reconciliation_split_witness :
  ∃ t1 to_emit cache' fs',
    main_update never_stalls (stopped_clock (1000 # 1)) (sample_args false)
      1 sample_news sample_cache sample_fs
    = (Ok (to_emit, cache'), fs')
    ∧ to_emit !! Some "u1" = None
    ∧ to_emit !! Some "u2" = Some (Some "T2", None)
    ∧ cache' !! Some "u2"
      = Some (PyInt (int_of_float (stopped_clock (1000 # 1) t1) + 100)).
Proof.
  destruct (reconciliation_split never_stalls (stopped_clock (1000 # 1))
              (sample_args false) 1 sample_news sample_cache sample_fs)
    as (t1 & to_emit & cache' & fs' & Hrun & _ & Hsplit).
  { right. vm_compute. discriminate. }
  exists t1, to_emit, cache', fs'. split; [exact Hrun|].
  destruct (Hsplit (Some "u1") (Some "T1", None)) as [Hknown _];
    [reflexivity|].
  destruct (Hsplit (Some "u2") (Some "T2", None)) as [_ Hnew];
    [reflexivity|].
  destruct Hknown as [_ Hout]; [by eexists|].
  destruct Hnew as [Hin Hrec]; [reflexivity|].
  repeat split; [exact Hout|exact Hin|]. apply Hrec. by right.
Defined.

(** The claim C1 as worded fails in two ways. When a write stalls: the new
    entry [u2] is handed to the emission step, the write of its line
    stalls, and the updated cache holds no record for [u2]. When the sleep
    is negative: the line of [u2] is written, [time.sleep] raises [IOError],
    and lines 105-107 are never reached, so no record is created at all. *)
Lemma stalled_entry_gets_no_record :
  (main_update (stalls_on (Some "u2")) (stopped_clock (1000 # 1))
     (sample_args false) 1 sample_news sample_cache sample_fs
   = (Ok ({[ Some "u2" := (Some "T2", None) ]},
          {[ Some "u1" := PyInt 1100 ]}),
      sample_fs)
   ∧ sample_news !! Some "u2" = Some (Some "T2", None)
   ∧ sample_cache !! Some "u2" = None
   ∧ ({[ Some "u1" := PyInt 1100 ]} : gmap pykey pyval) !! Some "u2"
     ≠ Some (PyInt (1000 + 100)))
  ∧ main_update never_stalls (stopped_clock (1000 # 1))
      (with_sleep (-1) (sample_args false)) 1 sample_news sample_cache
      sample_fs
    = (Raise IOError, {[ "/tmp/out" := "[bot] T2 | u2" ++ LF ]}).
Proof. repeat split; vm_compute; congruence. Qed.

(** C5, amended. Bootstrap gate, [now] being each time the integer part of
    the clock reading made at the assignment: with the cache-init flag set
    nothing is written (the file system is unchanged), the updated cache
    holds every parsed entry's url, a new entry with expiration [now + ttl]
    from the reading of line 105; and, given the same clock readings, it is
    the cache the run produces without the flag provided that run has a
    sleep that is not negative and no write of a new entry stalls in it. *)
Theorem bootstrap_gate (write_stalls : pykey → bool) (clock : nat → Q)
    (a a' : Args.t) (t : nat) (news : gmap pykey (pykey * pykey))
    (cache : gmap pykey pyval) (fs : filesystem) :
  Args.cache_init a = true →
  Args.cache_init a' = false →
  Args.cache_expiration a' = Args.cache_expiration a →
  ∃ t1 cache',
    main_update write_stalls clock a t news cache fs
    = (Ok (unknown cache news, cache'), fs)
    ∧ (∀ url attrs, news !! url = Some attrs → cache !! url = None →
         cache' !! url
         = Some (PyInt (int_of_float (clock t1) + Args.cache_expiration a)))
    ∧ (∀ url attrs, news !! url = Some attrs →
         ∃ n, cache' !! url
              = Some (PyInt (int_of_float (clock n)
                             + Args.cache_expiration a)))
    ∧ ((0 ≤ Args.sleep a')%Z →
       (∀ url, is_Some (unknown cache news !! url) →
          write_stalls url = false) →
       ∃ fs',
         main_update write_stalls clock a' t news cache fs
         = (Ok (unknown cache news, cache'), fs')).
Proof.
  intros Hon Hoff Httl.
  destruct (main_update_any_clock write_stalls clock a t news cache fs)
    as (t1 & cache' & Hrun & _ & Hcache'); [by left|].
  rewrite Hon in Hrun, Hcache'. simpl in Hcache'.
  exists t1, cache'. split; [exact Hrun|]. split; [|split].
  - intros url attrs Hattrs Hnone.
    destruct (Hcache' url) as (_ & _ & Hnew). by apply Hnew.
  - intros url attrs Hattrs.
    destruct (Hcache' url) as (_ & Hknown & Hnew).
    destruct (cache !! url) as [v|] eqn:Hv.
    + destruct Hknown as (n & _ & Hrec); eauto.
    + exists t1. by apply Hnew.
  - intros Hsleep Hfine. revert Hrun. unfold main_update.
    rewrite Hon, Hoff, Httl.
    destruct (refresh_known_any_clock clock (Args.cache_expiration a)
                (keys news) t cache news) as (t2 & cache1 & -> & _ & _).
    { apply keys_NoDup. }
    { intros k Hk. by apply elem_of_keys. }
    assert (filter (λ kv, kv.1 ∈ keys news → cache !! kv.1 = None) news
            = unknown cache news) as ->.
    { unfold unknown. apply map_filter_ext. intros i x Hx. simpl.
      split; [|done]. intros Hp. apply Hp. apply elem_of_keys. eauto. }
    rewrite write_data_spec by (by left).
    assert (unstalled write_stalls (unknown cache news) = unknown cache news)
      as ->.
    { apply map_filter_id. intros i x Hx. simpl. apply Hfine. eauto. }
    intros [= <-]. by eexists.
Qed.

Lemma bootstrap_gate_witness :
  ∃ t1 cache',
    main_update never_stalls (stopped_clock (1000 # 1)) (sample_args true)
      1 sample_news sample_cache sample_fs
    = (Ok (unknown sample_cache sample_news, cache'), sample_fs)
    ∧ cache' !! Some "u2"
      = Some (PyInt (int_of_float (stopped_clock (1000 # 1) t1) + 100))
    ∧ ∃ fs',
        main_update never_stalls (stopped_clock (1000 # 1))
          (sample_args false) 1 sample_news sample_cache sample_fs
        = (Ok (unknown sample_cache sample_news, cache'), fs').
Proof.
  destruct (bootstrap_gate never_stalls (stopped_clock (1000 # 1))
              (sample_args true) (sample_args false) 1 sample_news
              sample_cache sample_fs)
    as (t1 & cache' & Hrun & Hrec & _ & Hsame); [reflexivity..|].
  exists t1, cache'. split; [exact Hrun|]. split.
  - apply (Hrec (Some "u2") (Some "T2", None)); reflexivity.
  - apply Hsame; [vm_compute; discriminate|reflexivity].
Defined.

(** The claim C5 as worded fails in two ways. When a write stalls in the
    run without the flag, the two runs leave different caches. When the
    sleep is negative, the run without the flag ends in [IOError] and leaves
    no cache at all. *)
Lemma cache_init_differs_on_stall :
  (main_update (stalls_on (Some "u2")) (stopped_clock (1000 # 1))
     (sample_args true) 1 sample_news sample_cache sample_fs
   = (Ok ({[ Some "u2" := (Some "T2", None) ]},
          {[ Some "u1" := PyInt 1100; Some "u2" := PyInt 1100 ]}),
      sample_fs)
   ∧ main_update (stalls_on (Some "u2")) (stopped_clock (1000 # 1))
       (sample_args false) 1 sample_news sample_cache sample_fs
     = (Ok ({[ Some "u2" := (Some "T2", None) ]},
            {[ Some "u1" := PyInt 1100 ]}),
        sample_fs)
   ∧ ({[ Some "u1" := PyInt 1100; Some "u2" := PyInt 1100 ]}
        : gmap pykey pyval)
     ≠ {[ Some "u1" := PyInt 1100 ]})
  ∧ main_update never_stalls (stopped_clock (1000 # 1))
      (with_sleep (-1) (sample_args true)) 1 sample_news sample_cache
      sample_fs
    = (Ok ({[ Some "u2" := (Some "T2", None) ]},
           {[ Some "u1" := PyInt 1100; Some "u2" := PyInt 1100 ]}),
       sample_fs)
  ∧ main_update never_stalls (stopped_clock (1000 # 1))
      (with_sleep (-1) (sample_args false)) 1 sample_news sample_cache
      sample_fs
    = (Raise IOError, {[ "/tmp/out" := "[bot] T2 | u2" ++ LF ]}).
Proof.
  repeat split; try (vm_compute; reflexivity).
  intros Heq. apply (f_equal (λ m, m !! Some "u2")) in Heq.
  vm_compute in Heq. discriminate.
Qed.

(** ** The whole run *)

Section MainFacts.

Variable requests_get : string → Z → result string.
Variable feedparser_parse : string → list (gmap string string).
Variable int_literal : string → option Z.
Variable pickle_dumps : gmap pykey pyval → string.
Variable pickle_loads : string → result (gmap pykey pyval).

Local Abbreviation fetched a :=
  (fetch_all requests_get feedparser_parse (Args.rss_urls a)
     (Args.rss_http_timeout a) ∅).

Local Abbreviation run stalls clock :=
  (main requests_get feedparser_parse int_literal pickle_dumps pickle_loads
     stalls clock).

Local Abbreviation second_cache cache2 time_now :=
  (filter (λ kv, keeps int_literal time_now kv.2 = true) cache2).

(** The ways through [main]: the three exits with code 1, the exit with
    code 0, and lines 93-109. *)
Lemma main_cases (write_stalls : pykey → bool) (clock : nat → Q)
    (a : Args.t) (fs : filesystem) :
  ((Args.cache_expiration a < 0)%Z ∧ run write_stalls clock a fs = (Exit 1, fs))
  ∨ ((0 ≤ Args.cache_expiration a)%Z
     ∧ ((fs !! Args.output a = None
         ∧ run write_stalls clock a fs = (Exit 1, fs))
        ∨ (is_Some (fs !! Args.output a)
           ∧ ((fetched a = None ∧ run write_stalls clock a fs = (Exit 1, fs))
              ∨ (fetched a = Some ∅
                 ∧ run write_stalls clock a fs = (Exit 0, fs))
              ∨ ∃ news, fetched a = Some news ∧ news ≠ ∅
                  ∧ run write_stalls clock a fs
                    = match
                        cache0 <- read_cache pickle_loads (Args.cache a) fs ;;;
                        scrub_cache int_literal (clock 0%nat) cache0
                      with
                      | Raise e => (Uncaught e, fs)
                      | Ok cache1 =>
                          match
                            main_update write_stalls clock a 1%nat news
                              cache1 fs
                          with
                          | (Raise e, fs2) => (Uncaught e, fs2)
                          | (Ok (_, cache2), fs2) =>
                              (Returned,
                               write_cache pickle_dumps cache2 (Args.cache a)
                                 fs2)
                          end
                      end)))).
Proof.
  unfold main, path_exists.
  destruct (Z.ltb_spec (Args.cache_expiration a) 0) as [Hneg|Hpos];
    [by left|right].
  split; [done|].
  destruct (fs !! Args.output a) as [old|] eqn:Hout.
  - right. split; [by eexists|].
    rewrite bool_decide_eq_true_2 by eauto. simpl.
    destruct (fetched a) as [news|]; [|by left]. right.
    destruct (decide (news = ∅)) as [->|Hne].
    + left. by rewrite bool_decide_eq_true_2.
    + right. exists news. by rewrite bool_decide_eq_false_2.
  - left. rewrite bool_decide_eq_false_2 by (by intros [? ?]). done.
Qed.

(** A run that gets past the checks and reads a cache that the scrub pass
    accepts, with the cache-init flag or a sleep that is not negative: it
    reaches the end of [main], and the cache it hands to [write_cache] is
    the scrubbed cache with the records of lines 96-107. *)
Lemma main_returns (write_stalls : pykey → bool) (clock : nat → Q)
    (a : Args.t) (fs : filesystem) (news : gmap pykey (pykey * pykey))
    (cache0 cache1 : gmap pykey pyval) :
  (0 ≤ Args.cache_expiration a)%Z →
  is_Some (fs !! Args.output a) →
  fetched a = Some news →
  news ≠ ∅ →
  read_cache pickle_loads (Args.cache a) fs = Ok cache0 →
  scrub_cache int_literal (clock 0%nat) cache0 = Ok cache1 →
  Args.cache_init a = true ∨ (0 ≤ Args.sleep a)%Z →
  ∃ t1 cache2,
    run write_stalls clock a fs
    = (Returned,
       write_cache pickle_dumps cache2 (Args.cache a)
         (if Args.cache_init a then fs
          else append_file (Args.output a)
                 (lines (Args.handle a)
                    (unstalled write_stalls (unknown cache1 news))
                    (keys (unknown cache1 news))) fs))
    ∧ (1 ≤ t1 ≤ 1 + length (keys news))%nat
    ∧ ∀ k,
        (news !! k = None → cache2 !! k = cache1 !! k)
        ∧ (is_Some (news !! k) → is_Some (cache1 !! k) →
           ∃ n, (1 ≤ n < t1)%nat
                ∧ cache2 !! k
                  = Some (PyInt (int_of_float (clock n)
                                 + Args.cache_expiration a)))
        ∧ (is_Some (news !! k) → cache1 !! k = None →
           cache2 !! k
           = if Args.cache_init a || negb (write_stalls k)
             then Some (PyInt (int_of_float (clock t1)
                               + Args.cache_expiration a))
             else None).
Proof.
  intros Httl Hout Hfetch Hne Hread Hscrub Hsleep.
  destruct (main_cases write_stalls clock a fs)
    as [[? _]|[_ [[Hmiss _]|[_ [[Hnone _]|[[Hempty _]|Hcore]]]]]].
  - lia.
  - rewrite Hmiss in Hout. by destruct Hout.
  - congruence.
  - congruence.
  - destruct Hcore as (news' & Hfetch' & _ & ->).
    assert (news' = news) as -> by congruence.
    rewrite Hread. simpl. rewrite Hscrub.
    destruct (main_update_any_clock write_stalls clock a 1 news cache1 fs
                Hsleep) as (t1 & cache2 & -> & Hle & Hcache2).
    by exists t1, cache2.
Qed.

(** C6, amended. Write-stall recovery, for a run without the cache-init
    flag and with a sleep that is not negative, [now] being the integer part
    of a clock reading of the run: when the write of the line of a new entry
    stalls, the run still reaches its end; the entry was among the news
    handed to the emission step, its line is not among those appended to the
    output, and, the entry having been popped from the news, the cache that
    the run hands to [write_cache] holds no record for its url. The parsed
    entries whose write does not stall get a record with expiration
    [now + ttl]. *)
Theorem write_stall_drops_record (write_stalls : pykey → bool)
    (clock : nat → Q) (a : Args.t) (fs : filesystem)
    (news : gmap pykey (pykey * pykey)) (cache0 cache1 : gmap pykey pyval)
    (url : pykey) (attrs : pykey * pykey) :
  (0 ≤ Args.cache_expiration a)%Z →
  is_Some (fs !! Args.output a) →
  fetched a = Some news →
  read_cache pickle_loads (Args.cache a) fs = Ok cache0 →
  scrub_cache int_literal (clock 0%nat) cache0 = Ok cache1 →
  Args.cache_init a = false →
  (0 ≤ Args.sleep a)%Z →
  news !! url = Some attrs →
  cache1 !! url = None →
  write_stalls url = true →
  ∃ cache2,
    run write_stalls clock a fs
    = (Returned,
       write_cache pickle_dumps cache2 (Args.cache a)
         (append_file (Args.output a)
            (lines (Args.handle a)
               (unstalled write_stalls (unknown cache1 news))
               (keys (unknown cache1 news))) fs))
    ∧ unknown cache1 news !! url = Some attrs
    ∧ unstalled write_stalls (unknown cache1 news) !! url = None
    ∧ cache2 !! url = None
    ∧ ∀ url' attrs', news !! url' = Some attrs' →
        write_stalls url' = false →
        ∃ n, cache2 !! url'
             = Some (PyInt (int_of_float (clock n)
                            + Args.cache_expiration a)).
Proof.
  intros Httl Hout Hfetch Hread Hscrub Hoff Hsleep Hattrs Hnew Hstall.
  assert (news ≠ ∅) as Hne.
  { intros ->. by rewrite lookup_empty in Hattrs. }
  destruct (main_returns write_stalls clock a fs news cache0 cache1)
    as (t1 & cache2 & Hrun & _ & Hcache2); [done..|by right|].
  rewrite Hoff in Hrun, Hcache2.
  exists cache2. split; [exact Hrun|].
  split; [by rewrite lookup_unknown, Hnew|].
  split; [by rewrite lookup_unstalled, Hstall|].
  split.
  - destruct (Hcache2 url) as (_ & _ & Hrec).
    rewrite Hrec by (by eauto). by rewrite Hstall.
  - intros url' attrs' Hattrs' Hfine.
    destruct (Hcache2 url') as (_ & Hknown & Hrec).
    destruct (cache1 !! url') as [v|] eqn:Hv.
    + destruct Hknown as (n & _ & ?); eauto.
    + exists t1. rewrite Hrec by (by eauto). by rewrite Hfine.
Qed.

End MainFacts.


Lemma write_stall_drops_record_witness :
  ∃ cache2,
    main sample_get sample_feed decimal_literal sample_dumps sample_loads
      (stalls_on (Some "http://a")) (stopped_clock (1000 # 1))
      (sample_args false) sample_fs
    = (Returned,
       write_cache sample_dumps cache2 (Some "/tmp/cache")
         (append_file "/tmp/out"
            (lines (Some "bot")
               (unstalled (stalls_on (Some "http://a"))
                  (unknown ∅ sample_fetched))
               (keys (unknown ∅ sample_fetched))) sample_fs))
    ∧ cache2 !! Some "http://a" = None.
Proof.
  destruct (write_stall_drops_record sample_get sample_feed decimal_literal
              sample_dumps sample_loads (stalls_on (Some "http://a"))
              (stopped_clock (1000 # 1)) (sample_args false) sample_fs
              sample_fetched ∅ ∅ (Some "http://a")
              (Some "Title A", Some "cat"))
    as (cache2 & Hrun & _ & _ & Hgone & _).
  - vm_compute. discriminate.
  - by eexists.
  - vm_compute. reflexivity.
  - reflexivity.
  - reflexivity.
  - reflexivity.
  - vm_compute. discriminate.
  - reflexivity.
  - reflexivity.
  - reflexivity.
  - exists cache2. split; [exact Hrun|exact Hgone].
Defined.

(** The claim C6 as worded fails in two ways. On a whole run with one feed
    of the single entry [http://a], no cache file, and a write that stalls:
    the run returns, the output file stays empty, and the cache file written
    at the end holds the empty mapping, not a record for [http://a]. With a
    negative sleep and a second entry whose write does not stall, the run
    does not continue: it ends in [IOError] after the line of that entry, and
    no cache file is written. *)
Lemma stalled_entry_not_persisted :
  (main sample_get sample_feed decimal_literal sample_dumps sample_loads
     (stalls_on (Some "http://a")) (stopped_clock (1000 # 1))
     (sample_args false) sample_fs
   = (Returned,
      {[ "/tmp/out" := ""; "/tmp/cache" := sample_dumps ∅ ]})
   ∧ sample_loads (sample_dumps ∅) = Ok ∅
   ∧ (∅ : gmap pykey pyval) !! Some "http://a" ≠ Some (PyInt (1000 + 100)))
  ∧ main sample_get sample_feed_two decimal_literal sample_dumps
      sample_loads (stalls_on (Some "http://a")) (stopped_clock (1000 # 1))
      (with_sleep (-1) (sample_args false)) sample_fs
    = (Uncaught IOError,
       {[ "/tmp/out" := "[bot] Title B | http://b" ++ LF ]}).
Proof.
  split; [split; [vm_compute; reflexivity|]|vm_compute; reflexivity].
  split; [apply sample_pickle_round_trip|].
  by rewrite lookup_empty.
Qed.

(** ** Witnesses and examples *)

Lemma scrub_expiration_boundary_witness :
  map_Forall (λ _ v, ¬ rejected decimal_literal v) sample_snapshot
  ∧ ∃ cache',
      scrub_cache decimal_literal (1000 # 1) sample_snapshot = Ok cache'
      ∧ (cache' !! Some "a" = None ↔ (inject_Z 2000 < 1000 # 1)%Q)
      ∧ (cache' !! Some "c" = None ↔ (inject_Z 999 < 1000 # 1)%Q).
Proof.
  assert (map_Forall (λ _ v, ¬ rejected decimal_literal v) sample_snapshot)
    as Hok.
  { apply (bool_decide_unpack _). vm_compute. exact I. }
  split; [exact Hok|].
  destruct (scrub_expiration_boundary decimal_literal (1000 # 1)
              sample_snapshot Hok) as (cache' & Hrun & Hrec).
  exists cache'. split; [exact Hrun|]. split.
  - apply (Hrec (Some "a") (PyInt 2000) 2000); reflexivity.
  - apply (Hrec (Some "c") (PyInt 999) 999); reflexivity.
Defined.

(** The scrub pass on the sample snapshot: the record that is not a number
    and the expired record go, the live record stays. *)
Example scrub_cache_sample :
  scrub_cache decimal_literal (1000 # 1) sample_snapshot
  = Ok {[ Some "a" := PyInt 2000 ]}.
Proof. vm_compute. reflexivity. Qed.

(** The boundary: a record expiring at [now] stays, one expiring at
    [now - 1] goes, also when it is stored as a string. *)
Example scrub_cache_boundary :
  scrub_cache decimal_literal (1000 # 1)
    {[ Some "at" := PyInt 1000; Some "before" := PyStr "999" ]}
  = Ok {[ Some "at" := PyInt 1000 ]}.
Proof. vm_compute. reflexivity. Qed.

(** A clock reading inside the second 1000 expires the record at 1000. *)
Example scrub_cache_fraction :
  scrub_cache decimal_literal (2001 # 2) {[ Some "at" := PyInt 1000 ]}
  = Ok ∅.
Proof. vm_compute. reflexivity. Qed.

(** The end-to-end scenario: no cache file, a ttl of 100, the clock at
    1000, one feed with the entry [http://a], the handle [bot]. *)
Example main_end_to_end :
  main sample_get sample_feed decimal_literal sample_dumps sample_loads
    never_stalls (stopped_clock (1000 # 1)) (sample_args false) sample_fs
  = (Returned,
     {[ "/tmp/out" := "[bot-cat] Title A | http://a" ++ LF;
        "/tmp/cache" := sample_dumps {[ Some "http://a" := PyInt 1100 ]} ]}).
Proof. vm_compute. reflexivity. Qed.

(** The same run with the cache-init flag: the same cache file, and an
    output file left empty. *)
Example main_cache_init :
  main sample_get sample_feed decimal_literal sample_dumps sample_loads
    never_stalls (stopped_clock (1000 # 1)) (sample_args true) sample_fs
  = (Returned,
     {[ "/tmp/out" := "";
        "/tmp/cache" := sample_dumps {[ Some "http://a" := PyInt 1100 ]} ]}).
Proof. vm_compute. reflexivity. Qed.

(** A feed that cannot be fetched ends the run with exit code 1. *)
Example main_fetch_failure :
  main (λ _ _, Raise RequestException) sample_feed decimal_literal
    sample_dumps sample_loads never_stalls (stopped_clock (1000 # 1))
    (sample_args false) sample_fs
  = (Exit 1, sample_fs).
Proof. reflexivity. Qed.

(** ** Further properties: parsing and fetching *)

(** X1. Last writer wins: after [parse_news], the record under a link is
    that of the last entry of the feed with this link, and a link no entry
    of the feed has keeps what the dictionary held before. *)
Theorem parse_news_last_entry_wins
    (feedparser_parse : string → list (gmap string string))
    (data : string) (news : gmap pykey (pykey * pykey)) (k : pykey) :
  parse_news feedparser_parse data news !! k
  = match last (filter (λ e, e !! "link" = k) (feedparser_parse data)) with
    | Some e => Some (e !! "title", e !! "category")
    | None => news !! k
    end.
Proof.
  unfold parse_news. revert news.
  induction (feedparser_parse data) as [|e rest IH]; intros news; [done|].
  simpl. rewrite IH, parse_entry_records. rewrite filter_cons.
  destruct (decide (e !! "link" = k)) as [Hk|Hk].
  - rewrite last_cons.
    destruct (last (filter (λ e0, e0 !! "link" = k) rest)); [done|].
    by rewrite Hk, lookup_insert_eq.
  - destruct (last (filter (λ e0, e0 !! "link" = k) rest)); [done|].
    by rewrite lookup_insert_ne.
Qed.

(** X2. Parsing only adds: the keys of the dictionary after [parse_news]
    are the keys it had before together with the links of the entries of the
    feed, [None] for an entry without a link. *)
Theorem parse_news_dom
    (feedparser_parse : string → list (gmap string string))
    (data : string) (news : gmap pykey (pykey * pykey)) :
  dom (parse_news feedparser_parse data news)
  = dom news ∪ list_to_set ((λ e, e !! "link") <$> feedparser_parse data).
Proof.
  unfold parse_news. revert news.
  induction (feedparser_parse data) as [|e rest IH]; intros news.
  - simpl. set_solver.
  - simpl. rewrite IH, parse_entry_records, dom_insert_L. set_solver.
Qed.

(** The loop of lines 81-87 when no feed fails. *)
Lemma fetch_all_Some (requests_get : string → Z → result string)
    (feedparser_parse : string → list (gmap string string))
    (urls : list string) (timeout : Z) (news : gmap pykey (pykey * pykey)) :
  (∀ url, url ∈ urls → truthy (get_rss requests_get url timeout) = true) →
  fetch_all requests_get feedparser_parse urls timeout news
  = Some (foldl (λ acc url,
                   parse_news feedparser_parse
                     (py_str (get_rss requests_get url timeout)) acc)
            news urls).
Proof.
  revert news. induction urls as [|url rest IH]; intros news Hall; [done|].
  simpl. rewrite Hall by left. simpl. apply IH.
  intros u Hu. apply Hall. by right.
Qed.

Lemma fetch_all_None (requests_get : string → Z → result string)
    (feedparser_parse : string → list (gmap string string))
    (urls : list string) (timeout : Z) (news : gmap pykey (pykey * pykey))
    (url : string) :
  url ∈ urls → truthy (get_rss requests_get url timeout) = false →
  fetch_all requests_get feedparser_parse urls timeout news = None.
Proof.
  revert news. induction urls as [|u rest IH]; intros news Hin Hbad.
  - by apply elem_of_nil in Hin.
  - simpl. destruct (truthy (get_rss requests_get u timeout)) eqn:Hu;
      [|done].
    simpl. apply elem_of_cons in Hin as [->|Hin]; [congruence|].
    by apply IH.
Qed.

Lemma truthy_false (o : pykey) : truthy o = false ↔ o = None ∨ o = Some "".
Proof.
  destruct o as [s|]; simpl; [|by split; [left|]].
  rewrite negb_false_iff, String.eqb_eq. split.
  - intros ->. by right.
  - intros [?|[= ->]]; done.
Qed.

(** X3. Any failed fetch ends the run: the loop over the feeds gives up
    exactly when [get_rss] returns [None] or an empty text for some feed,
    whatever the other feeds return; otherwise the news are the feeds parsed
    one after the other into one dictionary. *)
Theorem fetch_all_fails_iff (requests_get : string → Z → result string)
    (feedparser_parse : string → list (gmap string string))
    (urls : list string) (timeout : Z) (news : gmap pykey (pykey * pykey)) :
  (fetch_all requests_get feedparser_parse urls timeout news = None
   ↔ ∃ url, url ∈ urls
            ∧ (get_rss requests_get url timeout = None
               ∨ get_rss requests_get url timeout = Some ""))
  ∧ (fetch_all requests_get feedparser_parse urls timeout news = None
     ∨ fetch_all requests_get feedparser_parse urls timeout news
       = Some (foldl (λ acc url,
                        parse_news feedparser_parse
                          (py_str (get_rss requests_get url timeout)) acc)
                 news urls)).
Proof.
  destruct (decide (Exists (λ url, truthy (get_rss requests_get url timeout)
                                   = false) urls)) as [Hbad|Hgood].
  - apply Exists_exists in Hbad as (url & Hin & Hbad).
    rewrite (fetch_all_None _ _ _ _ _ url Hin Hbad). split; [|by left].
    split; [|done]. intros _. exists url. split; [done|].
    by apply truthy_false.
  - assert (∀ url, url ∈ urls →
              truthy (get_rss requests_get url timeout) = true) as Hall.
    { intros url Hin.
      destruct (truthy (get_rss requests_get url timeout)) eqn:Hu; [done|].
      destruct Hgood. apply Exists_exists. eauto. }
    rewrite (fetch_all_Some _ _ _ _ _ Hall). split; [|by right].
    split; [done|]. intros (url & Hin & Hbad%truthy_false).
    rewrite Hall in Hbad; done.
Qed.

(** ** Further properties: the scrub pass *)

(** A pass that raises met a rejected value, and raises [TypeError]. *)
Lemma scrub_cache_raise_inv (int_literal : string → option Z) (now : Q)
    (cache : gmap pykey pyval) (e : exn) :
  scrub_cache int_literal now cache = Raise e →
  e = TypeError ∧ ∃ k v, cache !! k = Some v ∧ rejected int_literal v.
Proof.
  intros Hrun.
  destruct (decide (map_Forall (λ _ v, ¬ rejected int_literal v) cache))
    as [Hok|Hbad].
  - rewrite scrub_cache_Ok in Hrun by done. discriminate.
  - apply map_not_Forall in Hbad as (k & v & Hv & Hrej); [|apply _].
    apply dec_stable in Hrej.
    rewrite (scrub_cache_TypeError _ _ _ k v Hv Hrej) in Hrun.
    split; [congruence|eauto].
Qed.

Lemma keeps_inv (int_literal : string → option Z) (now : Q) (v : pyval) :
  keeps int_literal now v = true →
  ∃ expiration, py_int int_literal v = Ok expiration
                ∧ ¬ (inject_Z expiration < now)%Q.
Proof.
  intros Hkeep. unfold keeps in Hkeep.
  destruct (py_int int_literal v) as [expiration|] eqn:Hint; [|done].
  exists expiration. split; [done|].
  apply negb_true_iff, not_true_iff_false in Hkeep.
  by rewrite int_lt_float_spec in Hkeep.
Qed.

(** X4. The invariant of a scrubbed cache: where no value is rejected with a
    [TypeError] the pass returns a part of the dictionary it was given (no
    record added, none changed), and every record left has a value that
    [int] reads, as an expiration that is not below [now]. *)
Theorem scrub_cache_survivors (int_literal : string → option Z) (now : Q)
    (cache : gmap pykey pyval) :
  (∀ k v, cache !! k = Some v → ¬ rejected int_literal v) →
  ∃ cache',
    scrub_cache int_literal now cache = Ok cache'
    ∧ cache' ⊆ cache
    ∧ ∀ k v, cache' !! k = Some v →
        ∃ expiration, py_int int_literal v = Ok expiration
                      ∧ ¬ (inject_Z expiration < now)%Q.
Proof.
  intros Hok. eexists. split; [by apply scrub_cache_Ok|].
  split; [apply map_filter_subseteq|].
  intros k v [_ Hkeep]%map_lookup_filter_Some.
  by apply keeps_inv.
Qed.

Lemma scrub_cache_survivors_witness :
  ∃ cache',
    scrub_cache decimal_literal (1000 # 1) sample_snapshot = Ok cache'
    ∧ cache' ⊆ sample_snapshot.
Proof.
  destruct (scrub_cache_survivors decimal_literal (1000 # 1) sample_snapshot)
    as (cache' & Hrun & Hsub & _).
  { apply (bool_decide_unpack _). vm_compute. exact I. }
  exists cache'. by split.
Defined.

(** X6. Scrubbing composes along time: a pass at [now] followed by a pass at
    a later time [later] does what the single pass at [later] does. *)
Theorem scrub_cache_later (int_literal : string → option Z) (now later : Q)
    (cache : gmap pykey pyval) :
  (now <= later)%Q →
  (cache' <- scrub_cache int_literal now cache ;;;
   scrub_cache int_literal later cache')
  = scrub_cache int_literal later cache.
Proof.
  intros Hle.
  destruct (scrub_cache int_literal now cache) as [cache'|e] eqn:Hrun.
  - apply scrub_cache_inv in Hrun as [Hok ->]. simpl.
    rewrite (scrub_cache_Ok _ later cache) by done.
    rewrite scrub_cache_Ok.
    + f_equal. apply map_filter_filter_l. intros k v _ Hkeep. simpl in *.
      apply keeps_inv in Hkeep as (expiration & Hint & Hlive).
      apply (keeps_spec _ _ _ _ Hint). intros Hlt. apply Hlive.
      by eapply Qlt_le_trans.
    + intros k v [Hv _]%map_lookup_filter_Some. by eapply Hok.
  - apply scrub_cache_raise_inv in Hrun as (-> & k & v & Hv & Hrej).
    simpl. symmetry. by eapply scrub_cache_TypeError.
Qed.

Lemma scrub_cache_later_witness :
  (1000 # 1 <= 3000 # 1)%Q
  ∧ (cache' <- scrub_cache decimal_literal (1000 # 1) sample_snapshot ;;;
     scrub_cache decimal_literal (3000 # 1) cache')
    = scrub_cache decimal_literal (3000 # 1) sample_snapshot.
Proof.
  assert (1000 # 1 <= 3000 # 1)%Q as Hle by (vm_compute; discriminate).
  split; [exact Hle|].
  exact (scrub_cache_later decimal_literal _ _ sample_snapshot Hle).
Defined.

(** X7. The scrub pass does not depend on the order of [cache.keys()]:
    walking the keys of the dictionary in any order, each key once, gives
    the result of [scrub_cache], be it a dictionary or an exception. *)
Theorem scrub_cache_any_order (int_literal : string → option Z) (now : Q)
    (ks : list pykey) (cache : gmap pykey pyval) :
  ks ≡ₚ keys cache →
  scrub_keys int_literal now ks cache = scrub_cache int_literal now cache.
Proof.
  intros Hperm.
  destruct (decide (map_Forall (λ _ v, ¬ rejected int_literal v) cache))
    as [Hok|Hbad].
  - rewrite scrub_cache_Ok by done. rewrite scrub_keys_Ok.
    + f_equal. apply map_filter_ext. intros i x Hx. simpl. split.
      * intros Hkeep. apply Hkeep. rewrite Hperm. apply elem_of_keys. eauto.
      * intros Hkeep _. done.
    + rewrite Hperm. apply keys_NoDup.
    + intros k Hk. rewrite Hperm in Hk.
      apply elem_of_keys in Hk as [v Hv].
      exists v. split; [done|]. by eapply Hok.
  - apply map_not_Forall in Hbad as (k & v & Hv & Hrej); [|apply _].
    apply dec_stable in Hrej.
    rewrite (scrub_cache_TypeError _ now cache k v Hv Hrej).
    apply scrub_keys_TypeError.
    + rewrite Hperm. apply keys_NoDup.
    + intros k' Hk'. rewrite Hperm in Hk'. by apply elem_of_keys.
    + exists k, v. split; [|done]. rewrite Hperm. apply elem_of_keys. eauto.
Qed.

Lemma scrub_cache_any_order_witness :
  reverse (keys sample_snapshot) ≡ₚ keys sample_snapshot
  ∧ scrub_keys decimal_literal (1000 # 1) (reverse (keys sample_snapshot))
      sample_snapshot
    = scrub_cache decimal_literal (1000 # 1) sample_snapshot.
Proof.
  split; [apply reverse_Permutation|].
  apply (scrub_cache_any_order decimal_literal (1000 # 1)).
  apply reverse_Permutation.
Defined.

(** ** Further properties: the cache file *)

(** X8. Writing the cache replaces the file and nothing else: of two writes
    at the same path the last one wins, every other path keeps its
    contents, and reading the cache at another path is not disturbed. *)
Theorem write_cache_last_write_wins (pickle_dumps : gmap pykey pyval → string)
    (pickle_loads : string → result (gmap pykey pyval))
    (d1 d2 : gmap pykey pyval) (path : pykey) (fs : filesystem) :
  write_cache pickle_dumps d2 path (write_cache pickle_dumps d1 path fs)
  = write_cache pickle_dumps d2 path fs
  ∧ ∀ p, p ≠ py_str path →
      write_cache pickle_dumps d1 path fs !! p = fs !! p
      ∧ read_cache pickle_loads (Some p) (write_cache pickle_dumps d1 path fs)
        = read_cache pickle_loads (Some p) fs.
Proof.
  unfold write_cache. destruct (truthy path) eqn:Hpath; simpl.
  - split; [by rewrite insert_insert_eq|].
    intros p Hp.
    assert (<[py_str path := pickle_dumps d1]> fs !! p = fs !! p) as Hsame
      by (by rewrite lookup_insert_ne).
    split; [done|].
    unfold read_cache, path_exists. simpl. by rewrite Hsame.
  - done.
Qed.



(** ** Further properties: writing the news *)

Lemma lines_no_entry (handle : pykey) (data : gmap pykey (pykey * pykey))
    (urls : list pykey) :
  (∀ k, k ∈ urls → data !! k = None) → lines handle data urls = "".
Proof.
  induction urls as [|url rest IH]; intros Hnone; [done|].
  simpl. rewrite Hnone by left. rewrite IH; [done|].
  intros k Hk. apply Hnone. by right.
Qed.

(** X10. With a sleep that is not negative [write_data] returns and only
    appends: the output file ends up with its former contents followed by
    the lines of the entries whose write did not stall, every other file is
    as before, and the dictionary loses exactly the entries whose write
    stalled. *)
Theorem write_data_append_only (write_stalls : pykey → bool)
    (data : gmap pykey (pykey * pykey)) (output : string) (handle : pykey)
    (sleep : Z) (fs : filesystem) :
  (0 ≤ sleep)%Z →
  ∃ data' fs',
    write_data write_stalls data output handle sleep fs = (Ok data', fs')
    ∧ fs' !! output
      = Some (default "" (fs !! output)
              ++ lines handle (unstalled write_stalls data) (keys data))
    ∧ (∀ p, p ≠ output → fs' !! p = fs !! p)
    ∧ ∀ k, data' !! k = if write_stalls k then None else data !! k.
Proof.
  intros Hsleep. eexists _, _.
  split; [apply write_data_spec; by left|].
  unfold append_file. split; [by rewrite lookup_insert_eq|].
  split.
  - intros p Hp. by rewrite lookup_insert_ne.
  - intros k. apply lookup_unstalled.
Qed.

Lemma write_data_append_only_witness :
  ∃ data' fs',
    write_data (stalls_on (Some "u1")) sample_news "/tmp/out" (Some "bot") 2
      sample_fs
    = (Ok data', fs')
    ∧ data' !! Some "u1" = None
    ∧ data' !! Some "u2" = Some (Some "T2", None).
Proof.
  destruct (write_data_append_only (stalls_on (Some "u1")) sample_news
              "/tmp/out" (Some "bot") 2 sample_fs)
    as (data' & fs' & Hrun & _ & _ & Hdata); [vm_compute; discriminate|].
  exists data', fs'. split; [exact Hrun|].
  split; rewrite Hdata; reflexivity.
Defined.

(** X11. When the write of every entry stalls (or there is no entry),
    [write_data] leaves an existing output file as it was, and the dictionary
    comes back empty. *)
Theorem write_data_all_stalled (write_stalls : pykey → bool)
    (data : gmap pykey (pykey * pykey)) (output : string) (handle : pykey)
    (sleep : Z) (fs : filesystem) :
  (∀ k, is_Some (data !! k) → write_stalls k = true) →
  is_Some (fs !! output) →
  write_data write_stalls data output handle sleep fs = (Ok ∅, fs).
Proof.
  intros Hall Hfile. rewrite write_data_spec by (by right).
  assert (unstalled write_stalls data = ∅) as ->.
  { apply map_eq. intros k. rewrite lookup_unstalled, lookup_empty.
    destruct (write_stalls k) eqn:Hk; [done|].
    destruct (data !! k) as [x|] eqn:Hx; [|done].
    rewrite Hall in Hk by eauto. done. }
  rewrite lines_no_entry by (intros; apply lookup_empty).
  by rewrite append_file_nothing.
Qed.

Lemma write_data_all_stalled_witness :
  is_Some (sample_fs !! "/tmp/out")
  ∧ write_data (λ _, true) sample_news "/tmp/out" (Some "bot") 2 sample_fs
    = (Ok ∅, sample_fs).
Proof.
  assert (is_Some (sample_fs !! "/tmp/out")) as Hfile by (by eexists).
  split; [exact Hfile|].
  apply (write_data_all_stalled (λ _, true)); [reflexivity|exact Hfile].
Defined.

(** X21. A negative sleep breaks the emission: when some entry's write does
    not stall, [write_data] ends in the [IOError] of [time.sleep], which the
    [except ValueError] of line 249 does not catch, right after the line of
    one such entry has been written; that line is all the output file
    gains. *)
Theorem write_data_negative_sleep (write_stalls : pykey → bool)
    (data : gmap pykey (pykey * pykey)) (output : string) (handle : pykey)
    (sleep : Z) (fs : filesystem) :
  (sleep < 0)%Z →
  (∃ k, is_Some (data !! k) ∧ write_stalls k = false) →
  ∃ url attrs,
    data !! url = Some attrs
    ∧ write_stalls url = false
    ∧ write_data write_stalls data output handle sleep fs
      = (Raise IOError,
         append_file output (format_message url attrs handle) fs).
Proof.
  intros Hneg (k & Hk & Hfine). unfold write_data.
  destruct (write_entries_negative_sleep write_stalls output handle sleep
              (keys data) data (append_file output "" fs) Hneg)
    as (before & url & attrs & after & _ & _ & Hurl & Hattrs & Hrun).
  - apply keys_NoDup.
  - intros k' Hk'. by apply elem_of_keys.
  - exists k. split; [by apply elem_of_keys|done].
  - exists url, attrs. split; [done|]. split; [done|].
    rewrite Hrun. by rewrite append_file_twice.
Qed.

Lemma write_data_negative_sleep_witness :
  ∃ url attrs,
    sample_news !! url = Some attrs
    ∧ write_data never_stalls sample_news "/tmp/out" (Some "bot") (-1)
        sample_fs
      = (Raise IOError,
         append_file "/tmp/out" (format_message url attrs (Some "bot"))
           sample_fs).
Proof.
  destruct (write_data_negative_sleep never_stalls sample_news "/tmp/out"
              (Some "bot") (-1) sample_fs) as (url & attrs & Hattrs & _ & Hrun).
  - vm_compute. reflexivity.
  - exists (Some "u1"). split; [by eexists|reflexivity].
  - exists url, attrs. by split.
Defined.

(** ** Further properties: reconciliation under any clock *)

(** X12. Reconciliation keeps its hands off what the feeds did not show: for
    a run with the cache-init flag or a sleep that is not negative, whatever
    the clock returns and whichever writes stall, lines 96-107 return (no
    pop hits a missing key), the record of a url absent from the news is as
    before, no record is dropped, and a record is only ever added for a
    parsed url. *)
Theorem main_update_frame (write_stalls : pykey → bool) (clock : nat → Q)
    (a : Args.t) (t : nat) (news : gmap pykey (pykey * pykey))
    (cache : gmap pykey pyval) (fs : filesystem) :
  Args.cache_init a = true ∨ (0 ≤ Args.sleep a)%Z →
  ∃ cache' fs',
    main_update write_stalls clock a t news cache fs
    = (Ok (unknown cache news, cache'), fs')
    ∧ (∀ k, news !! k = None → cache' !! k = cache !! k)
    ∧ dom cache ⊆ dom cache'
    ∧ dom cache' ⊆ dom cache ∪ dom news.
Proof.
  intros Hsleep.
  destruct (main_update_any_clock write_stalls clock a t news cache fs Hsleep)
    as (t1 & cache' & Hrun & _ & Hcache').
  exists cache'. eexists. split; [exact Hrun|]. split; [|split].
  - intros k. by apply Hcache'.
  - intros k [v Hv]%elem_of_dom. apply elem_of_dom.
    destruct (Hcache' k) as (Habsent & Hknown & _).
    destruct (news !! k) as [x|] eqn:Hx.
    + destruct Hknown as (n & _ & ->); eauto.
    + rewrite Habsent by done. eauto.
  - intros k Hk. apply elem_of_union.
    destruct (Hcache' k) as (Habsent & _ & _).
    destruct (news !! k) as [x|] eqn:Hx.
    + right. apply elem_of_dom. eauto.
    + left. apply elem_of_dom. rewrite <- Habsent by done.
      by apply elem_of_dom.
Qed.

Lemma main_update_frame_witness :
  ∃ cache' fs',
    main_update (stalls_on (Some "u2")) (stopped_clock (1000 # 1))
      (sample_args false) 1 sample_news sample_snapshot sample_fs
    = (Ok (unknown sample_snapshot sample_news, cache'), fs')
    ∧ cache' !! Some "a" = Some (PyInt 2000).
Proof.
  destruct (main_update_frame (stalls_on (Some "u2"))
              (stopped_clock (1000 # 1)) (sample_args false) 1 sample_news
              sample_snapshot sample_fs)
    as (cache' & fs' & Hrun & Hframe & _).
  { right. vm_compute. discriminate. }
  exists cache', fs'. split; [exact Hrun|].
  rewrite Hframe; reflexivity.
Defined.

(** X13. With a clock that does not go back, for a run with the cache-init
    flag or a sleep that is not negative, every record the run writes lasts
    at least the ttl: after lines 96-107 the record of a parsed url, when
    there is one, is an integer not below the truncated [t]-th clock reading
    plus the ttl. *)
Theorem main_update_expiration_bound (write_stalls : pykey → bool)
    (clock : nat → Q) (a : Args.t) (t : nat)
    (news : gmap pykey (pykey * pykey)) (cache : gmap pykey pyval)
    (fs : filesystem) :
  Args.cache_init a = true ∨ (0 ≤ Args.sleep a)%Z →
  (∀ n m, (n ≤ m)%nat →
     (int_of_float (clock n) ≤ int_of_float (clock m))%Z) →
  ∃ to_emit cache' fs',
    main_update write_stalls clock a t news cache fs
    = (Ok (to_emit, cache'), fs')
    ∧ ∀ k v, is_Some (news !! k) → cache' !! k = Some v →
        ∃ expiration,
          v = PyInt expiration
          ∧ (int_of_float (clock t) + Args.cache_expiration a ≤ expiration)%Z.
Proof.
  intros Hsleep Hmono.
  destruct (main_update_any_clock write_stalls clock a t news cache fs Hsleep)
    as (t1 & cache' & Hrun & Hle & Hcache').
  eexists _, cache', _. split; [exact Hrun|].
  intros k v Hseen Hv. destruct (Hcache' k) as (_ & Hknown & Hnew).
  destruct (cache !! k) as [old|] eqn:Hold.
  - destruct Hknown as (n & Hn & Hrec); [done|by eexists|].
    rewrite Hrec in Hv. injection Hv as <-. eexists. split; [done|].
    apply Z.add_le_mono_r. apply Hmono. lia.
  - rewrite Hnew in Hv by done.
    destruct (Args.cache_init a || negb (write_stalls k)); [|done].
    injection Hv as <-. eexists. split; [done|].
    apply Z.add_le_mono_r. apply Hmono. lia.
Qed.

Lemma main_update_expiration_bound_witness :
  ∃ to_emit cache' fs',
    main_update never_stalls (stopped_clock (2001 # 2)) (sample_args false)
      1 sample_news sample_cache sample_fs
    = (Ok (to_emit, cache'), fs')
    ∧ ∀ v, cache' !! Some "u2" = Some v →
        ∃ expiration, v = PyInt expiration ∧ (1000 + 100 ≤ expiration)%Z.
Proof.
  destruct (main_update_expiration_bound never_stalls
              (stopped_clock (2001 # 2)) (sample_args false) 1 sample_news
              sample_cache sample_fs)
    as (to_emit & cache' & fs' & Hrun & Hbound).
  { right. vm_compute. discriminate. }
  { intros n m _. reflexivity. }
  exists to_emit, cache', fs'. split; [exact Hrun|].
  intros v Hv. apply (Hbound (Some "u2") v); [by eexists|exact Hv].
Defined.

(** ** Further properties: runs of [main] *)

Section MainRuns.

Variable requests_get : string → Z → result string.
Variable feedparser_parse : string → list (gmap string string).
Variable int_literal : string → option Z.
Variable pickle_dumps : gmap pykey pyval → string.
Variable pickle_loads : string → result (gmap pykey pyval).

Local Abbreviation fetched' a :=
  (fetch_all requests_get feedparser_parse (Args.rss_urls a)
     (Args.rss_http_timeout a) ∅).

Local Abbreviation run' stalls clock :=
  (main requests_get feedparser_parse int_literal pickle_dumps pickle_loads
     stalls clock).

Local Abbreviation process' stalls clock :=
  (main_process requests_get feedparser_parse int_literal pickle_dumps
     pickle_loads stalls clock).



End MainRuns.

(** ** Further properties: two runs in a row *)


Section TwoRuns.

Variable requests_get : string → Z → result string.
Variable feedparser_parse : string → list (gmap string string).
Variable int_literal : string → option Z.
Variable pickle_dumps : gmap pykey pyval → string.
Variable pickle_loads : string → result (gmap pykey pyval).

Local Abbreviation fetched'' a :=
  (fetch_all requests_get feedparser_parse (Args.rss_urls a)
     (Args.rss_http_timeout a) ∅).

Local Abbreviation run'' stalls clock :=
  (main requests_get feedparser_parse int_literal pickle_dumps pickle_loads
     stalls clock).

Local Abbreviation second_cache'' cache2 time_now :=
  (filter (λ kv, keeps int_literal time_now kv.2 = true) cache2).







End TwoRuns.




(** The second run of the sample, after a stalled first run, writes the
    line the first run could not. *)
Example retry_sample :
  main sample_get sample_feed decimal_literal sample_dumps sample_loads
    never_stalls (ticking_clock 1050) (sample_args false)
    {[ "/tmp/out" := ""; "/tmp/cache" := sample_dumps ∅ ]}
  = (Returned,
     {[ "/tmp/out" := "[bot-cat] Title A | http://a" ++ LF;
        "/tmp/cache" := sample_dumps {[ Some "http://a" := PyInt 1151 ]} ]}).
Proof. vm_compute. reflexivity. Qed.

(** ** Further properties: how long a record lasts *)

(** On a time that is not negative, [int] returns the integer part. *)
Lemma int_of_float_bounds (x : Q) :
  (0 <= x)%Q →
  (inject_Z (int_of_float x) <= x)%Q ∧ (x < inject_Z (int_of_float x) + 1)%Q.
Proof.
  intros Hx.
  assert (int_of_float x = Qfloor x) as ->.
  { destruct x as [n d]. unfold Qle in Hx. simpl in Hx.
    unfold int_of_float. simpl. apply Z.quot_div_nonneg; lia. }
  split; [apply Qfloor_le|].
  pose proof (Qlt_floor x) as Hlt. by rewrite inject_Z_plus in Hlt.
Qed.

(** X19. How long a record lasts, in a cache that the pass can walk to the
    end (no value that [int] rejects with a [TypeError]) and for a clock
    reading [q] that is not negative: a record written as [int(q) + ttl] at
    the reading [q] is kept by every scrub pass up to [q + ttl - 1] and
    removed by every pass after [q + ttl]; the truncation of the clock costs
    less than one second of the ttl. *)
Theorem record_lifetime (int_literal : string → option Z) (q later : Q)
    (ttl : Z) (cache : gmap pykey pyval) (k : pykey) :
  (0 <= q)%Q →
  cache !! k = Some (PyInt (int_of_float q + ttl)) →
  (∀ k' v, cache !! k' = Some v → ¬ rejected int_literal v) →
  ∃ cache',
    scrub_cache int_literal later cache = Ok cache'
    ∧ ((later <= q + inject_Z ttl - 1)%Q →
       cache' !! k = Some (PyInt (int_of_float q + ttl)))
    ∧ ((q + inject_Z ttl < later)%Q → cache' !! k = None).
Proof.
  intros Hq Hk Hok. eexists. split; [by apply scrub_cache_Ok|].
  destruct (int_of_float_bounds q Hq) as [Hlow Hhigh].
  pose proof (keeps_spec int_literal later (PyInt (int_of_float q + ttl))
                (int_of_float q + ttl) eq_refl) as Hkeep.
  rewrite inject_Z_plus in Hkeep. split.
  - intros Hsoon. apply map_lookup_filter_Some. split; [done|]. simpl.
    apply Hkeep. lra.
  - intros Hlate. apply map_lookup_filter_None. right.
    intros v Hv. rewrite Hk in Hv. injection Hv as <-. simpl.
    rewrite Hkeep. intros Hnot. apply Hnot. lra.
Qed.

Lemma record_lifetime_witness :
  ∃ cache',
    scrub_cache decimal_literal (1099 # 1)
      {[ Some "http://a" := PyInt (int_of_float (2001 # 2) + 100) ]}
    = Ok cache'
    ∧ cache' !! Some "http://a" = Some (PyInt 1100).
Proof.
  destruct (record_lifetime decimal_literal (2001 # 2) (1099 # 1) 100
              {[ Some "http://a" := PyInt (int_of_float (2001 # 2) + 100) ]}
              (Some "http://a"))
    as (cache' & Hrun & Hkept & _).
  - vm_compute. discriminate.
  - reflexivity.
  - apply (bool_decide_unpack _). vm_compute. exact I.
  - exists cache'. split; [exact Hrun|]. apply Hkept.
    vm_compute. discriminate.
Defined.
